(** * Vector2D (VectorD.mjs): a shallow embedding and its properties

    The class keeps its coordinates in a [Float32Array], so the numbers of
    this development are IEEE 754 values: JavaScript Numbers are binary64
    values and a typed-array store rounds them to binary32.  Both formats are
    taken from the Standard Library's executable specification of
    floating-point arithmetic ([SpecFloat]), which needs no axiom. *)

From Stdlib Require Import ZArith List String Ascii Bool Lia.
From Stdlib Require Import Floats.SpecFloat.
Import ListNotations.

Set Warnings "-register-all".
Local Open Scope Z_scope.

(* ================================================================== *)
(** ** The fragment of the JavaScript runtime the class relies on *)
(* ================================================================== *)

Module JS.

(** A Number is a binary64 value, kept in the canonical form of that
    format. *)
Definition number : Type := spec_float.

Definition prec64 : Z := 53.
Definition emax64 : Z := 1024.
Definition prec32 : Z := 24.
Definition emax32 : Z := 128.

Definition NaN : number := S754_nan.
Definition Infinity : number := S754_infinity false.
Definition zero : number := S754_zero false.

(** The Number denoted by an integer literal. *)
Definition of_Z (z : Z) : number := binary_normalize prec64 emax64 z 0 false.

(** The Number [m * 2^e]. *)
Definition dyadic (m e : Z) : number := binary_normalize prec64 emax64 m e false.

Definition add : number -> number -> number := SFadd prec64 emax64.
Definition sub : number -> number -> number := SFsub prec64 emax64.
Definition mul : number -> number -> number := SFmul prec64 emax64.
Definition neg : number -> number := SFopp.

Definition is_nan (a : number) : bool :=
  match a with S754_nan => true | _ => false end.

(** [a] is a zero or a finite non-zero number. *)
Definition is_finite (a : number) : bool :=
  match a with S754_zero _ | S754_finite _ _ _ => true | _ => false end.

(** [a === b] on two Numbers: NaN equals nothing, the two zeros are equal. *)
Definition number_eq (a b : number) : bool := SFeqb a b.

(** Rounding of a Number to binary32 and the reading of a binary32 value
    as a Number, which is exact. *)
Definition to_binary32 (a : number) : spec_float :=
  match a with
  | S754_finite s m e => binary_round prec32 emax32 s m e
  | _ => a
  end.

Definition of_binary32 (a : spec_float) : number :=
  match a with
  | S754_finite s m e => binary_round prec64 emax64 s m e
  | _ => a
  end.

(** [Math.fround]: what a store into a [Float32Array] keeps of a Number. *)
Definition fround (a : number) : number := of_binary32 (to_binary32 a).

(** [Math.max] and [Math.min] on two Numbers: NaN is contagious and [-0]
    is below [+0]. *)
Definition Math_max (a b : number) : number :=
  match SFcompare a b with
  | None => NaN
  | Some Lt => b
  | Some Gt => a
  | Some Eq =>
      match a, b with
      | S754_zero true, S754_zero false => b
      | _, _ => a
      end
  end.

Definition Math_min (a b : number) : number :=
  match SFcompare a b with
  | None => NaN
  | Some Lt => a
  | Some Gt => b
  | Some Eq =>
      match a, b with
      | S754_zero false, S754_zero true => b
      | _, _ => a
      end
  end.

(** *** StringToNumber

    Strings are sequences of 8-bit code units (U+0000 to U+00FF).  The
    function follows the StringNumericLiteral grammar: optional white space
    around nothing, a signed decimal literal, [Infinity], or an unsigned
    binary, octal or hexadecimal integer; anything else is NaN.  The value
    of a literal is rounded to the nearest Number, ties to even. *)

Definition is_white_space (c : ascii) : bool :=
  let n := nat_of_ascii c in
  (((9 <=? n) && (n <=? 13)) || (n =? 32) || (n =? 160))%nat.

Fixpoint trim_start (l : list ascii) : list ascii :=
  match l with
  | c :: l' => if is_white_space c then trim_start l' else l
  | [] => []
  end.

Definition trim (l : list ascii) : list ascii :=
  rev (trim_start (rev (trim_start l))).

Definition digit_value (base : Z) (c : ascii) : option Z :=
  let n := Z.of_nat (nat_of_ascii c) in
  let d :=
    if (48 <=? n) && (n <=? 57) then n - 48
    else if (97 <=? n) && (n <=? 102) then n - 87
    else if (65 <=? n) && (n <=? 70) then n - 55
    else 16 in
  if d <? base then Some d else None.

(** Reads the longest run of digits in [base] at the head of [l]; returns
    the accumulated integer, the number of digits read and the rest. *)
Fixpoint read_digits (base : Z) (l : list ascii) (acc : Z) (count : Z)
  : Z * Z * list ascii :=
  match l with
  | c :: l' =>
      match digit_value base c with
      | Some d => read_digits base l' (acc * base + d) (count + 1)
      | None => (acc, count, l)
      end
  | [] => (acc, count, l)
  end.

(** The Number nearest to [m * 10^e10] (with [0 <= m]), negated when
    [negative]. *)
Definition decimal_to_number (negative : bool) (m e10 : Z) : number :=
  if m =? 0 then S754_zero negative
  else if 0 <=? e10 then
    binary_normalize prec64 emax64 (cond_Zopp negative (m * 10 ^ e10)) 0 false
  else
    let '(q, e, l) := SFdiv_core_binary prec64 emax64 m 0 (10 ^ (- e10)) 0 in
    binary_round_aux prec64 emax64 negative q e l.

(** ExponentPart_opt followed by the end of the string: the exponent, or
    [None] when the rest is no such thing. *)
Definition read_exponent (l : list ascii) : option Z :=
  match l with
  | [] => Some 0
  | c :: l' =>
      if (Ascii.eqb c "e" || Ascii.eqb c "E")%bool then
        let '(negative, l'') :=
          match l' with
          | "-"%char :: r => (true, r)
          | "+"%char :: r => (false, r)
          | _ => (false, l')
          end in
        match read_digits 10 l'' 0 0 with
        | (e, count, []) => if 0 <? count then Some (cond_Zopp negative e) else None
        | _ => None
        end
      else None
  end.

(** StrUnsignedDecimalLiteral. *)
Definition unsigned_decimal (negative : bool) (l : list ascii) : number :=
  if list_eq_dec ascii_dec l (list_ascii_of_string "Infinity")
  then S754_infinity negative
  else
    let '(ip, nip, r1) := read_digits 10 l 0 0 in
    let '(m, nfp, r2) :=
      match r1 with
      | "."%char :: r => read_digits 10 r ip 0
      | _ => (ip, 0, r1)
      end in
    if 0 <? nip + nfp then
      match read_exponent r2 with
      | Some e => decimal_to_number negative m (e - nfp)
      | None => NaN
      end
    else NaN.

Definition non_decimal (base : Z) (l : list ascii) : number :=
  match read_digits base l 0 0 with
  | (m, count, []) => if 0 <? count then of_Z m else NaN
  | _ => NaN
  end.

Definition StringToNumber (s : string) : number :=
  match trim (list_ascii_of_string s) with
  | [] => zero
  | "0"%char :: "x"%char :: l | "0"%char :: "X"%char :: l => non_decimal 16 l
  | "0"%char :: "o"%char :: l | "0"%char :: "O"%char :: l => non_decimal 8 l
  | "0"%char :: "b"%char :: l | "0"%char :: "B"%char :: l => non_decimal 2 l
  | "-"%char :: l => unsigned_decimal true l
  | "+"%char :: l => unsigned_decimal false l
  | l => unsigned_decimal false l
  end.

End JS.

(* ================================================================== *)
(** ** Float32Array *)
(* ================================================================== *)

Module Float32Array.

(** The elements of a typed array, each read back as a Number. *)
Definition t : Type := list JS.number.

(** [new Float32Array(n)]: [n] elements, all [+0]. *)
Definition new (n : nat) : t := repeat JS.zero n.

(** [a[i]]: the element, or [undefined] ([None]) past the end. *)
Definition get (a : t) (i : nat) : option JS.number := nth_error a i.

(** [a[i] = v]: the element becomes [v] rounded to binary32; a store past
    the end is ignored. *)
Fixpoint set (a : t) (i : nat) (v : JS.number) : t :=
  match a, i with
  | [], _ => []
  | _ :: a', O => JS.fround v :: a'
  | c :: a', S i' => c :: set a' i' v
  end.

(** [a.slice()]: a fresh array with the same elements. *)
Definition slice (a : t) : t := a.

End Float32Array.

(* ================================================================== *)
(** ** Free functions the class calls *)
(* ================================================================== *)

Module Globals.

(** Modelled from the spec: the free function [lerp] is called by
    [Vector2D.lerp] and [lerpTo] but is neither defined nor imported in
    VectorD.mjs; the spec gives [lerp(a, b, t) = a + (b - a) * t]. *)
Definition lerp (a b t : JS.number) : JS.number :=
  JS.add a (JS.mul (JS.sub b a) t).

(** Modelled from the spec: the free function [clamp] is called by the
    method [clamp] but is neither defined nor imported in VectorD.mjs; the
    spec gives [clamp(v, lo, hi) = max(lo, min(hi, v))]. *)
Definition clamp (v lo hi : JS.number) : JS.number :=
  JS.Math_max lo (JS.Math_min hi v).

End Globals.

(* ================================================================== *)
(** ** The class *)
(* ================================================================== *)

(** The options object; [history] is absent or an integer. *)
Module Options.

Record t : Type := Build { history : option Z }.

(** The default [{}]. *)
Definition empty : t := {| history := None |}.

End Options.

Module Vector2D.

(** An instance.  [saved], [history], [_min] and [_max] are [undefined]
    ([None]) until something assigns them. *)
Inductive t : Type := Build {
  options : Options.t;
  coords : Float32Array.t;
  saved : option Float32Array.t;
  history : option (list Float32Array.t);
  _min : option t;
  _max : option t
}.

(** What a call can raise: a [TypeError] the source throws with a message;
    the [TypeError]s of the runtime, for a property read on [undefined] and
    for the conversion of a BigInt or a Symbol to a Number or of a Symbol to
    a string; or what an argument's own conversion code throws. *)
Inductive error : Type :=
| TypeError (message : string)
| TypeError_of_undefined (property : string)
| TypeError_of_conversion
| Thrown_by_argument.

Inductive completion (A : Type) : Type :=
| Normal (a : A)
| Throw (e : error).
Arguments Normal {A} a.
Arguments Throw {A} e.

Definition and_then {A B} (c : completion A) (k : A -> completion B) : completion B :=
  match c with
  | Normal a => k a
  | Throw e => Throw e
  end.

(** The values a caller passes as [arg1] and [arg2].  [VObject] is an
    object without conversion code of its own and [VThrowing] one whose
    conversion to a primitive throws.  An object whose own conversion
    returns a primitive is not listed: the stores below treat it as that
    primitive. *)
Inductive value : Type :=
| VUndefined
| VNull
| VBoolean (b : bool)
| VNumber (n : JS.number)
| VString (s : string)
| VBigInt (z : Z)
| VSymbol
| VArray (elements : list value)
| VVector2D (v : t)
| VObject
| VThrowing.

Definition is_undefined (v : value) : bool :=
  match v with VUndefined => true | _ => false end.

(** The error ToString raises on [v], if any.  An array is joined element
    by element, in order, and fails on the first element that fails; a
    Symbol has no string form. *)
Fixpoint ToString_error (v : value) : option error :=
  match v with
  | VSymbol => Some TypeError_of_conversion
  | VThrowing => Some Thrown_by_argument
  | VArray elements =>
      (fix first (l : list value) : option error :=
         match l with
         | [] => None
         | e :: l' =>
             match ToString_error e with
             | Some err => Some err
             | None => first l'
             end
         end) elements
  | _ => None
  end.

(** ToNumber.  A BigInt and a Symbol have no conversion to a Number.  An
    array converts through its string form, the elements joined by commas:
    no element gives the empty string, one element its own string form
    (empty for [undefined] and [null], the decimal digits for a BigInt;
    converting a Number to a string and back gives the same Number, except
    that [-0] prints as [0]), and two or more elements a string with a
    comma, which is not numeric.  Other objects print as
    [[object Object]]. *)
Fixpoint ToNumber (v : value) : completion JS.number :=
  match v with
  | VUndefined => Normal JS.NaN
  | VNull => Normal JS.zero
  | VBoolean b => Normal (if b then JS.of_Z 1 else JS.zero)
  | VNumber n => Normal n
  | VString s => Normal (JS.StringToNumber s)
  | VBigInt _ => Throw TypeError_of_conversion
  | VSymbol => Throw TypeError_of_conversion
  | VArray elements =>
      match ToString_error v with
      | Some err => Throw err
      | None =>
          match elements with
          | [] => Normal JS.zero
          | [e] =>
              match e with
              | VUndefined | VNull => Normal JS.zero
              | VNumber (S754_zero _) => Normal JS.zero
              | VBoolean _ => Normal JS.NaN
              | VBigInt z => Normal (JS.of_Z z)
              | _ => ToNumber e
              end
          | _ => Normal JS.NaN
          end
      end
  | VVector2D _ => Normal JS.NaN
  | VObject => Normal JS.NaN
  | VThrowing => Throw Thrown_by_argument
  end.

(** [a[i] = v] for a value [v]: [v] is converted to a Number first, and
    nothing is stored when the conversion throws. *)
Definition store (a : Float32Array.t) (i : nat) (v : value)
  : completion Float32Array.t :=
  and_then (ToNumber v) (fun n => Normal (Float32Array.set a i n)).

(** ToNumber of what a typed-array read gives. *)
Definition to_number (r : option JS.number) : JS.number :=
  match r with
  | Some n => n
  | None => JS.NaN
  end.

(** [a !== b] on the results of two typed-array reads. *)
Definition strict_neq (a b : option JS.number) : bool :=
  match a, b with
  | Some m, Some n => negb (JS.number_eq m n)
  | None, None => false
  | _, _ => true
  end.

(** A method runs on [this] and leaves a completion and the instance as it
    is afterwards. *)
Definition method (A : Type) : Type := t -> completion A * t.

Definition ret {A} (a : A) : method A := fun this => (Normal a, this).

Definition throw {A} (e : error) : method A := fun this => (Throw e, this).

Definition bind {A B} (m : method A) (k : A -> method B) : method B :=
  fun this =>
    match m this with
    | (Normal a, this') => k a this'
    | (Throw e, this') => (Throw e, this')
    end.

Definition lift {A} (c : completion A) : method A := fun this => (c, this).

Definition read {A} (field : t -> A) : method A := fun this => (Normal (field this), this).

Definition write (update : t -> t) : method unit := fun this => (Normal tt, update this).

Declare Scope method_scope.
Delimit Scope method_scope with method.
Notation "x <- m ;; k" := (bind m (fun x => k))
  (at level 61, m at next level, right associativity) : method_scope.
Notation "m ;;; k" := (bind m (fun _ => k))
  (at level 61, right associativity) : method_scope.

Definition set_coords (c : Float32Array.t) (this : t) : t :=
  Build (options this) c (saved this) (history this) (_min this) (_max this).

Definition set_saved (s : Float32Array.t) (this : t) : t :=
  Build (options this) (coords this) (Some s) (history this) (_min this) (_max this).

Definition set_history (h : list Float32Array.t) (this : t) : t :=
  Build (options this) (coords this) (saved this) (Some h) (_min this) (_max this).

Definition set_min (b : t) (this : t) : t :=
  Build (options this) (coords this) (saved this) (history this) (Some b) (_max this).

Definition set_max (b : t) (this : t) : t :=
  Build (options this) (coords this) (saved this) (history this) (_min this) (Some b).

(** [static parse(arg1, arg2)] *)
Definition parse (arg1 arg2 : value) : completion Float32Array.t :=
  let coords := Float32Array.new 2 in
  if negb (is_undefined arg2) then
    and_then (store coords 0 arg1) (fun coords =>
    and_then (store coords 1 arg2) (fun coords =>
    Normal coords))
  else if negb (is_undefined arg1) then
    match arg1 with
    | VArray elements =>
        if (List.length elements =? 2)%nat then
          and_then (store coords 0 (nth 0 elements VUndefined)) (fun coords =>
          and_then (store coords 1 (nth 1 elements VUndefined)) (fun coords =>
          Normal coords))
        else Throw (TypeError "Array must be of length 2")
    | VVector2D v =>
        let coords :=
          Float32Array.set coords 0 (to_number (Float32Array.get (Vector2D.coords v) 0)) in
        let coords :=
          Float32Array.set coords 1 (to_number (Float32Array.get (Vector2D.coords v) 1)) in
        Normal coords
    | _ => Throw (TypeError "Argument must be an array or Vector2D object")
    end
  else Throw (TypeError "Must provide an argument").

(** [set(arg1, arg2)] *)
Definition set (arg1 arg2 : value) : method unit :=
  (c <- lift (parse arg1 arg2) ;;
   write (set_coords c))%method.

(** [save()]: the snapshot is stored in [saved] first; with a positive
    [options.history] it is also put at the front of [history], and the
    last entry is removed when the list has grown past the limit. *)
Definition save : method unit :=
  (c <- read coords ;;
   let snapshot := Float32Array.slice c in
   write (set_saved snapshot) ;;;
   o <- read options ;;
   match Options.history o with
   | Some k =>
       if negb (k =? 0) && (0 <? k) then
         h <- read history ;;
         match h with
         | None => throw (TypeError_of_undefined "unshift")
         | Some h =>
             let h := snapshot :: h in
             let h := if k <? Z.of_nat (List.length h) then removelast h else h in
             write (set_history h)
         end
       else ret tt
   | None => ret tt
   end)%method.

(** [new Vector2D(arg1, arg2, options)]; [options] is [None] when the
    caller leaves it out, and then defaults to [{}]. *)
Definition new (arg1 arg2 : value) (options : option Options.t) : completion t :=
  let options := match options with Some o => o | None => Options.empty end in
  let this := Build options (Float32Array.new 2) None None None None in
  match (set arg1 arg2 ;;; save)%method this with
  | (Normal _, this) => Normal this
  | (Throw e, _) => Throw e
  end.

(** [static lerp(v1, v2, amt)] *)
Definition lerp (v1 v2 : t) (amt : JS.number) : completion t :=
  new
    (VNumber (Globals.lerp (to_number (Float32Array.get (coords v1) 0))
                           (to_number (Float32Array.get (coords v2) 0)) amt))
    (VNumber (Globals.lerp (to_number (Float32Array.get (coords v1) 1))
                           (to_number (Float32Array.get (coords v2) 1)) amt))
    None.

(** [add(x, y)], with [x] and [y] Numbers, as the method documents them;
    the same holds of [subtract], [lerpTo] and the two setters below. *)
Definition add (x y : JS.number) : method unit :=
  (write (fun this => set_coords
     (Float32Array.set (coords this) 0
        (JS.add (to_number (Float32Array.get (coords this) 0)) x)) this) ;;;
   write (fun this => set_coords
     (Float32Array.set (coords this) 1
        (JS.add (to_number (Float32Array.get (coords this) 1)) y)) this))%method.

(** [subtract(x, y)] *)
Definition subtract (x y : JS.number) : method unit :=
  (write (fun this => set_coords
     (Float32Array.set (coords this) 0
        (JS.sub (to_number (Float32Array.get (coords this) 0)) x)) this) ;;;
   write (fun this => set_coords
     (Float32Array.set (coords this) 1
        (JS.sub (to_number (Float32Array.get (coords this) 1)) y)) this))%method.

(** [lerpTo(x, y, amt)] *)
Definition lerpTo (x y amt : JS.number) : method unit :=
  (write (fun this => set_coords
     (Float32Array.set (coords this) 0
        (Globals.lerp (to_number (Float32Array.get (coords this) 0)) x amt)) this) ;;;
   write (fun this => set_coords
     (Float32Array.set (coords this) 1
        (Globals.lerp (to_number (Float32Array.get (coords this) 1)) y amt)) this))%method.

(** [get x()] and [get y()] *)
Definition x (this : t) : option JS.number := Float32Array.get (coords this) 0.

Definition y (this : t) : option JS.number := Float32Array.get (coords this) 1.

(** [set x(x)] and [set y(y)] *)
Definition set_x (x : JS.number) : method unit :=
  write (fun this => set_coords (Float32Array.set (coords this) 0 x) this).

Definition set_y (y : JS.number) : method unit :=
  write (fun this => set_coords (Float32Array.set (coords this) 1 y) this).

(** [get dirty()] *)
Definition dirty : method bool :=
  (c <- read coords ;;
   s <- read saved ;;
   match s with
   | None => throw (TypeError_of_undefined "0")
   | Some s =>
       ret (strict_neq (Float32Array.get c 0) (Float32Array.get s 0)
            || strict_neq (Float32Array.get c 1) (Float32Array.get s 1))
   end)%method.

(** [hasValue()] *)
Definition hasValue : method bool :=
  (c <- read coords ;;
   ret (strict_neq (Float32Array.get c 0) (Some JS.zero)
        || strict_neq (Float32Array.get c 1) (Some JS.zero)
        || strict_neq (Float32Array.get c 2) (Some JS.zero)))%method.

(** [copy()] *)
Definition copy : method t :=
  fun this => lift (new (VVector2D this) VUndefined None) this.

(** [opposite()] *)
Definition opposite : method t :=
  fun this =>
    lift (new (VNumber (JS.neg (to_number (Float32Array.get (coords this) 0))))
              (VNumber (JS.neg (to_number (Float32Array.get (coords this) 1))))
              None) this.

(** [max(x, y)] and [min(x, y)] *)
Definition max (x y : value) : method unit :=
  (b <- lift (new x y None) ;;
   write (set_max b))%method.

Definition min (x y : value) : method unit :=
  (b <- lift (new x y None) ;;
   write (set_min b))%method.

(** [this.f.x], where [this.f] is one of the class's own methods: a
    function object has no property [x], so the read gives [undefined]. *)
Definition x_of_method : option JS.number := None.

(** The read [o.x] as the source writes it on a bound: it fails on
    [undefined]. *)
Definition x_of_bound (b : option t) : method (option JS.number) :=
  match b with
  | Some v => ret (x v)
  | None => throw (TypeError_of_undefined "x")
  end.

Definition y_of_bound (b : option t) : method (option JS.number) :=
  match b with
  | Some v => ret (y v)
  | None => throw (TypeError_of_undefined "y")
  end.

(** [clamp()] *)
Definition clamp : method unit :=
  (mn <- read _min ;;
   mx <- read _max ;;
   c <- read coords ;;
   lo <- x_of_bound mn ;;
   hi <- x_of_bound mx ;;
   write (set_coords
     (Float32Array.set c 0
        (Globals.clamp (to_number (Float32Array.get c 0)) (to_number lo) (to_number hi)))) ;;;
   c <- read coords ;;
   lo <- y_of_bound mn ;;
   hi <- y_of_bound mx ;;
   write (set_coords
     (Float32Array.set c 1
        (Globals.clamp (to_number (Float32Array.get c 1)) (to_number lo) (to_number hi)))))%method.

(** [limited()]: [this.min] and [this.max] are the two methods above, not
    the stored bounds [_min] and [_max]. *)
Definition limited : method t :=
  fun this =>
    lift (new
      (VNumber (JS.Math_max (to_number x_of_method)
         (JS.Math_min (to_number x_of_method)
            (to_number (Float32Array.get (coords this) 0)))))
      (VNumber (JS.Math_max (to_number x_of_method)
         (JS.Math_min (to_number x_of_method)
            (to_number (Float32Array.get (coords this) 1)))))
      None) this.

End Vector2D.

(* ================================================================== *)
(** ** Vocabulary of the statements *)
(* ================================================================== *)

(** A Number a [Float32Array] can hold: rounding to binary32 keeps it. *)
Definition is_float32 (a : JS.number) : Prop := JS.fround a = a.

(** The coordinate buffer every instance has: two binary32 elements. *)
Definition float32_pair (c : Float32Array.t) : Prop :=
  List.length c = 2%nat /\ Forall is_float32 c.

Definition no_nan (c : Float32Array.t) : Prop :=
  Forall (fun a => JS.is_nan a = false) c.

(** The two buffers differ on some axis, under [!==]. *)
Definition differ (c c' : Float32Array.t) : bool :=
  Vector2D.strict_neq (Float32Array.get c 0) (Float32Array.get c' 0)
  || Vector2D.strict_neq (Float32Array.get c 1) (Float32Array.get c' 1).

(** The calls that change [coords] without saving. *)
Inductive mutation : Type :=
| Add (x y : JS.number)
| Subtract (x y : JS.number)
| Set_ (arg1 arg2 : Vector2D.value)
| LerpTo (x y amt : JS.number)
| SetX (x : JS.number)
| SetY (y : JS.number).

Definition mutate (mu : mutation) : Vector2D.method unit :=
  match mu with
  | Add x y => Vector2D.add x y
  | Subtract x y => Vector2D.subtract x y
  | Set_ arg1 arg2 => Vector2D.set arg1 arg2
  | LerpTo x y amt => Vector2D.lerpTo x y amt
  | SetX x => Vector2D.set_x x
  | SetY y => Vector2D.set_y y
  end.

(** The calls that change an instance. *)
Inductive call : Type :=
| Mutate (mu : mutation)
| Save
| Min (x y : Vector2D.value)
| Max (x y : Vector2D.value)
| Clamp.

Definition run (c : call) : Vector2D.method unit :=
  match c with
  | Mutate mu => mutate mu
  | Save => Vector2D.save
  | Min x y => Vector2D.min x y
  | Max x y => Vector2D.max x y
  | Clamp => Vector2D.clamp
  end.

Definition bound_ok (b : option Vector2D.t) : Prop :=
  match b with
  | Some v => float32_pair (Vector2D.coords v)
  | None => True
  end.

(** What holds of every instance the constructor returns and is kept by
    every call: the buffer, and the buffer of each bound that is set, are
    pairs of binary32 values. *)
Definition well_formed (this : Vector2D.t) : Prop :=
  float32_pair (Vector2D.coords this) /\
  bound_ok (Vector2D._min this) /\ bound_ok (Vector2D._max this).

(** [save()] called once for each buffer of [cs] in turn, each call made
    with [coords] holding that buffer. *)
Fixpoint save_each (cs : list Float32Array.t) : Vector2D.method unit :=
  match cs with
  | [] => Vector2D.ret tt
  | c :: cs' =>
      Vector2D.bind (Vector2D.write (Vector2D.set_coords c))
        (fun _ => Vector2D.bind Vector2D.save (fun _ => save_each cs'))
  end.

(** Number literals used in the examples. *)
Definition num (z : Z) : Vector2D.value := Vector2D.VNumber (JS.of_Z z).

Definition one_tenth : JS.number := JS.StringToNumber "0.1".

Definition one_half : JS.number := JS.StringToNumber "0.5".

(** The instance [new Vector2D(a, b)] returns. *)
Definition vec (a b : JS.number) : Vector2D.t :=
  Vector2D.Build Options.empty [JS.fround a; JS.fround b]
    (Some [JS.fround a; JS.fround b]) None None None.

Definition is_array (v : Vector2D.value) : bool :=
  match v with Vector2D.VArray _ => true | _ => false end.

Definition is_vector2d (v : Vector2D.value) : bool :=
  match v with Vector2D.VVector2D _ => true | _ => false end.

(** The three ways a call gives the parser nothing it accepts: one
    argument that is an array of the wrong length, one argument that is
    neither an array nor a Vector2D, or no argument. *)
Definition invalid_argument (arg1 arg2 : Vector2D.value) : Prop :=
  arg2 = Vector2D.VUndefined /\
  ((exists l, arg1 = Vector2D.VArray l /\ List.length l <> 2%nat) \/
   (arg1 <> Vector2D.VUndefined /\ is_array arg1 = false /\ is_vector2d arg1 = false) \/
   arg1 = Vector2D.VUndefined).

(** ToNumber throws on [v]: a BigInt, a Symbol, an object whose conversion
    throws, or an array whose string form cannot be built. *)
Definition unconvertible (v : Vector2D.value) : bool :=
  match v with
  | Vector2D.VBigInt _ | Vector2D.VSymbol | Vector2D.VThrowing => true
  | Vector2D.VArray _ =>
      match Vector2D.ToString_error v with Some _ => true | None => false end
  | _ => false
  end.

(** An error raised by a conversion, not thrown by the source. *)
Definition conversion_error (e : Vector2D.error) : Prop :=
  e = Vector2D.TypeError_of_conversion \/ e = Vector2D.Thrown_by_argument.

(** [options.history] asks for a history: it is present and positive. *)
Definition history_enabled (o : Options.t) : bool :=
  match Options.history o with
  | Some k => 0 <? k
  | None => false
  end.

(** The options the constructor stores. *)
Definition options_or_default (o : option Options.t) : Options.t :=
  match o with
  | Some o => o
  | None => Options.empty
  end.

(** The instance after the calls of [cs], made in turn; a call that
    throws leaves the instance as the throw found it, and the caller goes
    on with the next call. *)
Fixpoint run_all (cs : list call) (this : Vector2D.t) : Vector2D.t :=
  match cs with
  | [] => this
  | c :: cs' => run_all cs' (snd (run c this))
  end.

(** [a <= b] on two Numbers; false when either is NaN. *)
Definition number_le (a b : JS.number) : bool := SFleb a b.

(* ================================================================== *)
(** ** Rounding to a binary format *)
(* ================================================================== *)

Section Rounding_facts.

Variables prec emax : Z.
Hypothesis prec_pos : 0 < prec.

Lemma digits2_pos_log2 (p : positive) :
  Zpos (digits2_pos p) = Z.log2 (Zpos p) + 1.
Proof.
  induction p as [p IH | p IH |]; cbn [digits2_pos]; try reflexivity.
  - rewrite Pos2Z.inj_succ, IH.
    change (Z.pos p~1) with (2 * Z.pos p + 1).
    rewrite Z.log2_succ_double by lia. lia.
  - rewrite Pos2Z.inj_succ, IH.
    change (Z.pos p~0) with (2 * Z.pos p).
    rewrite Z.log2_double by lia. lia.
Qed.

Lemma Zdigits2_log2 (m : Z) : 0 < m -> Zdigits2 m = Z.log2 m + 1.
Proof. destruct m; try lia. intros _. apply digits2_pos_log2. Qed.

Lemma digits2_pos_iter_xO (d m : positive) :
  Zpos (digits2_pos (Pos.iter xO m d)) = Zpos (digits2_pos m) + Zpos d.
Proof.
  rewrite Pos2Nat.inj_iter.
  rewrite <- (positive_nat_Z d).
  induction (Pos.to_nat d) as [|k IH].
  - cbn. lia.
  - rewrite Nat2Z.inj_succ. cbn [Nat.iter nat_rect digits2_pos].
    rewrite Pos2Z.inj_succ. unfold Nat.iter in IH. lia.
Qed.

Lemma iter_pos_nat {A} (f : A -> A) (p : positive) (a : A) :
  iter_pos f p a = Nat.iter (Pos.to_nat p) f a.
Proof.
  revert a. induction p as [p IH | p IH |]; intros a; cbn [iter_pos].
  - rewrite !IH, Pos2Nat.inj_xI.
    replace (S (2 * Pos.to_nat p))%nat with (Pos.to_nat p + (Pos.to_nat p + 1))%nat by lia.
    rewrite !Nat.iter_add. reflexivity.
  - rewrite !IH, Pos2Nat.inj_xO.
    replace (2 * Pos.to_nat p)%nat with (Pos.to_nat p + Pos.to_nat p)%nat by lia.
    rewrite Nat.iter_add. reflexivity.
  - reflexivity.
Qed.

Lemma shr_m_shr_1 (mrs : shr_record) :
  0 <= shr_m mrs -> shr_m (shr_1 mrs) = Z.div2 (shr_m mrs).
Proof. destruct mrs as [[|[p|p|]|p] r s]; cbn; intros; try reflexivity; lia. Qed.

Lemma shr_m_iter (k : nat) (mrs : shr_record) :
  0 <= shr_m mrs ->
  shr_m (Nat.iter k shr_1 mrs) = Z.shiftr (shr_m mrs) (Z.of_nat k).
Proof.
  intros Hm. induction k as [|k IH].
  - cbn [Nat.iter nat_rect Z.of_nat]. now rewrite Z.shiftr_0_r.
  - change (Nat.iter (S k) shr_1 mrs) with (shr_1 (Nat.iter k shr_1 mrs)).
    rewrite shr_m_shr_1.
    + rewrite IH, Nat2Z.inj_succ, <- Z.add_1_r, <- Z.shiftr_shiftr by lia.
      now rewrite Z.div2_spec.
    + rewrite IH. apply Z.shiftr_nonneg. exact Hm.
Qed.

(** The mantissa and exponent [shr_fexp] leaves. *)
Lemma shr_fexp_spec (m e : Z) (l : location) :
  0 <= m ->
  let n := Z.max 0 (fexp prec emax (Zdigits2 m + e) - e) in
  shr_m (fst (shr_fexp prec emax m e l)) = Z.shiftr m n /\
  snd (shr_fexp prec emax m e l) = e + n.
Proof.
  intros Hm n. unfold shr_fexp, shr.
  assert (Hr : shr_m (shr_record_of_loc m l) = m) by (destruct l as [|[]]; reflexivity).
  subst n. destruct (fexp prec emax (Zdigits2 m + e) - e) as [|p|p] eqn:E; cbn [fst snd].
  - rewrite Hr. cbn. split; [reflexivity|lia].
  - rewrite iter_pos_nat, shr_m_iter, Hr, positive_nat_Z by (rewrite Hr; exact Hm).
    rewrite Z.max_r by lia. split; reflexivity.
  - rewrite Hr. cbn. split; [reflexivity|lia].
Qed.

Lemma round_nearest_even_cases (m : Z) (l : location) :
  round_nearest_even m l = m \/ round_nearest_even m l = m + 1.
Proof. destruct l as [|[]]; cbn; auto. destruct (Z.even m); auto. Qed.

Lemma Zdigits2_shiftr (m n : Z) :
  0 < m -> 0 <= n -> 0 < Z.shiftr m n ->
  Zdigits2 (Z.shiftr m n) = Zdigits2 m - n.
Proof.
  intros Hm Hn Hs. rewrite !Zdigits2_log2 by lia.
  rewrite Z.log2_shiftr by lia.
  assert (~ Z.log2 m < n).
  { intros Hlt. assert (Z.shiftr m n = 0); [|lia].
    apply Z.shiftr_eq_0_iff. right. lia. }
  lia.
Qed.

Lemma Zdigits2_shiftr_0 (m n : Z) :
  0 < m -> 0 <= n -> Z.shiftr m n = 0 -> Zdigits2 m <= n.
Proof.
  intros Hm Hn Hs. rewrite Zdigits2_log2 by lia.
  apply Z.shiftr_eq_0_iff in Hs. lia.
Qed.

Lemma Zdigits2_succ (m : Z) :
  0 < m -> Zdigits2 (m + 1) = Zdigits2 m \/ Zdigits2 (m + 1) = Zdigits2 m + 1.
Proof.
  intros Hm. rewrite !Zdigits2_log2 by lia.
  pose proof (Z.log2_succ_le m). pose proof (Z.log2_le_mono m (m + 1)).
  unfold Z.succ in *. lia.
Qed.

(** Rounding an aligned mantissa gives a float of the format. *)
Lemma binary_round_aux_valid (s : bool) (m e : Z) (l : location) :
  0 < m -> e <= fexp prec emax (Zdigits2 m + e) ->
  valid_binary prec emax (binary_round_aux prec emax s m e l) = true.
Proof.
  intros Hm He. unfold binary_round_aux.
  destruct (shr_fexp_spec m e l) as [H1 H1e]; [lia|].
  destruct (shr_fexp prec emax m e l) as [mrs1 e1]. cbn [fst snd] in H1, H1e.
  rewrite Z.max_r in H1, H1e by lia.
  set (D := Zdigits2 m + e) in *.
  replace (e + (fexp prec emax D - e)) with (fexp prec emax D) in H1e by lia.
  pose proof (round_nearest_even_cases (shr_m mrs1) (loc_of_shr_record mrs1)) as R.
  remember (round_nearest_even (shr_m mrs1) (loc_of_shr_record mrs1)) as m2 eqn:Em2.
  clear Em2.
  assert (Hm1 : 0 <= shr_m mrs1) by (rewrite H1; apply Z.shiftr_nonneg; lia).
  assert (Hm2 : 0 <= m2) by lia.
  destruct (shr_fexp_spec m2 e1 loc_Exact) as [H3 H3e]; [lia|].
  destruct (shr_fexp prec emax m2 e1 loc_Exact) as [mrs3 e3]. cbn [fst snd] in H3, H3e.
  destruct (shr_m mrs3) as [|m3|m3] eqn:E3; try reflexivity.
  destruct (e3 <=? emax - prec) eqn:Hle; [|reflexivity].
  cbn [valid_binary]. unfold bounded. rewrite Hle, andb_true_r.
  unfold canonical_mantissa. apply Z.eqb_eq.
  change (Z.pos (digits2_pos m3)) with (Zdigits2 (Z.pos m3)).
  assert (Hpos : 0 < Z.shiftr m2 (Z.max 0 (fexp prec emax (Zdigits2 m2 + e1) - e1)))
    by (rewrite <- H3; lia).
  rewrite H3e, H3. clear Hle E3 H3 H3e.
  assert (Hd1 : 0 < shr_m mrs1 -> Zdigits2 (shr_m mrs1) + e1 = D).
  { intros Hp. rewrite H1 in *. rewrite Zdigits2_shiftr; unfold fexp in *; lia. }
  assert (Hd0 : shr_m mrs1 = 0 -> D <= e1).
  { intros Hz. rewrite H1 in Hz. apply Zdigits2_shiftr_0 in Hz; unfold fexp in *; lia. }
  assert (Hcases : (0 < m2 /\ (Zdigits2 m2 + e1 = D \/ (Zdigits2 m2 + e1 = D + 1 /\ 2 <= Zdigits2 m2))) \/
                   m2 = 0 \/ (m2 = 1 /\ D <= e1)).
  { destruct R as [R|R].
    - destruct (Z.eq_dec (shr_m mrs1) 0); [lia|]. left. split; [lia|]. left. rewrite R. apply Hd1. lia.
    - destruct (Z.eq_dec (shr_m mrs1) 0) as [Hz|Hnz].
      + right. right. split; [lia|auto].
      + left. split; [lia|]. rewrite R.
        destruct (Zdigits2_succ (shr_m mrs1)) as [S1|S1]; [lia| |]; rewrite S1.
        * left. apply Hd1. lia.
        * right. split; [rewrite <- Hd1; lia|].
          rewrite Zdigits2_log2 by lia. pose proof (Z.log2_nonneg (shr_m mrs1)). lia. }
  remember (Z.max 0 (fexp prec emax (Zdigits2 m2 + e1) - e1)) as n2 eqn:En2.
  destruct Hcases as [[Hp [Hc|[Hc Hge]]]|[Hz|[Hone HD]]].
  - assert (Hn : n2 = 0) by (rewrite Hc in En2; lia). rewrite Hn in *.
    rewrite Z.shiftr_0_r, Z.add_0_r, Hc. lia.
  - rewrite Hc in En2.
    assert (Hn : n2 = 0 \/ n2 = 1) by (unfold fexp in *; lia).
    destruct Hn as [Hn|Hn]; rewrite Hn in *.
    + rewrite Z.shiftr_0_r, Z.add_0_r, Hc. unfold fexp in *; lia.
    + rewrite Zdigits2_shiftr by lia.
      replace (Zdigits2 m2 - 1 + (e1 + 1)) with (D + 1) by lia.
      unfold fexp in *; lia.
  - rewrite Hz in Hpos. rewrite Z.shiftr_0_l in Hpos. lia.
  - rewrite Hone in *. cbn [Zdigits2 digits2_pos] in En2.
    assert (Hn : n2 = 0) by (unfold fexp in *; lia). rewrite Hn in *.
    rewrite Z.shiftr_0_r, Z.add_0_r. cbn [Zdigits2 digits2_pos].
    unfold fexp in *; lia.
Qed.

Lemma binary_round_valid (s : bool) (m : positive) (e : Z) :
  valid_binary prec emax (binary_round prec emax s m e) = true.
Proof.
  unfold binary_round, shl_align.
  destruct (fexp prec emax (Z.pos (digits2_pos m) + e) - e) as [|d|d] eqn:E;
    apply binary_round_aux_valid; try lia; cbn [Zdigits2]; try lia.
  rewrite digits2_pos_iter_xO.
  replace (Z.pos (digits2_pos m) + Z.pos d + fexp prec emax (Z.pos (digits2_pos m) + e))
    with (Z.pos (digits2_pos m) + e) by lia.
  lia.
Qed.

(** A mantissa already aligned on its exponent is left as it is. *)
Lemma binary_round_aux_canonical (s : bool) (m : positive) (e : Z) :
  bounded prec emax m e = true ->
  binary_round_aux prec emax s (Z.pos m) e loc_Exact = S754_finite s m e.
Proof.
  unfold bounded, canonical_mantissa. intros H.
  apply andb_true_iff in H. destruct H as [Hc Hb]. apply Z.eqb_eq in Hc.
  unfold binary_round_aux, shr_fexp. cbn [Zdigits2 shr_record_of_loc].
  rewrite Hc, Z.sub_diag. cbn [shr shr_m loc_of_shr_record round_nearest_even Zdigits2].
  rewrite Hc, Z.sub_diag. cbn [shr shr_m]. rewrite Hb. reflexivity.
Qed.

Lemma iter_shr_1_iter_xO (k : nat) (m : positive) :
  Nat.iter k shr_1 (Build_shr_record (Z.pos (Nat.iter k xO m)) false false) =
  Build_shr_record (Z.pos m) false false.
Proof.
  revert m. induction k as [|k IH]; intros m; [reflexivity|].
  rewrite Nat.iter_succ_r.
  change (Nat.iter (S k) xO m) with (xO (Nat.iter k xO m)).
  cbn [shr_1 orb]. apply IH.
Qed.

(** The same value with [d] more low zero bits rounds to the canonical
    float. *)
Lemma binary_round_shifted (s : bool) (m d : positive) (e : Z) :
  bounded prec emax m e = true ->
  binary_round prec emax s (Pos.iter xO m d) (e - Z.pos d) = S754_finite s m e.
Proof.
  intros H. pose proof H as H'.
  unfold bounded, canonical_mantissa in H'.
  apply andb_true_iff in H'. destruct H' as [Hc Hb]. apply Z.eqb_eq in Hc.
  unfold binary_round, shl_align.
  rewrite digits2_pos_iter_xO.
  replace (Z.pos (digits2_pos m) + Z.pos d + (e - Z.pos d))
    with (Z.pos (digits2_pos m) + e) by lia.
  rewrite Hc. replace (e - (e - Z.pos d)) with (Z.pos d) by lia.
  unfold binary_round_aux at 1, shr_fexp at 1. cbn [Zdigits2 shr_record_of_loc].
  rewrite digits2_pos_iter_xO.
  replace (Z.pos (digits2_pos m) + Z.pos d + (e - Z.pos d))
    with (Z.pos (digits2_pos m) + e) by lia.
  rewrite Hc. replace (e - (e - Z.pos d)) with (Z.pos d) by lia.
  cbn [shr]. rewrite iter_pos_nat, Pos2Nat.inj_iter.
  change (nat_rect (fun _ : nat => positive) m (fun _ : nat => xO) (Pos.to_nat d))
    with (Nat.iter (Pos.to_nat d) xO m).
  rewrite iter_shr_1_iter_xO. cbn [shr_m loc_of_shr_record round_nearest_even].
  replace (e - Z.pos d + Z.pos d) with e by lia.
  unfold shr_fexp. cbn [Zdigits2 shr_record_of_loc].
  rewrite Hc, Z.sub_diag. cbn [shr shr_m]. rewrite Hb. reflexivity.
Qed.

(** A float with fewer digits than the format keeps is padded with low
    zero bits. *)
Lemma binary_round_padded (s : bool) (m d : positive) (e : Z) :
  e - fexp prec emax (Z.pos (digits2_pos m) + e) = Z.pos d ->
  e - Z.pos d <= emax - prec ->
  binary_round prec emax s m e = S754_finite s (Pos.iter xO m d) (e - Z.pos d).
Proof.
  intros Hd Hb. unfold binary_round, shl_align.
  replace (fexp prec emax (Z.pos (digits2_pos m) + e) - e) with (Z.neg d) by lia.
  replace (fexp prec emax (Z.pos (digits2_pos m) + e)) with (e - Z.pos d) by lia.
  apply binary_round_aux_canonical.
  unfold bounded, canonical_mantissa. apply andb_true_iff. split.
  - apply Z.eqb_eq. rewrite digits2_pos_iter_xO.
    replace (Z.pos (digits2_pos m) + Z.pos d + (e - Z.pos d))
      with (Z.pos (digits2_pos m) + e) by lia.
    lia.
  - apply Z.leb_le. exact Hb.
Qed.

End Rounding_facts.


(** Reading a binary32 value as a Number and storing it back is exact. *)
Lemma to_of_binary32 (a : spec_float) :
  valid_binary JS.prec32 JS.emax32 a = true ->
  JS.to_binary32 (JS.of_binary32 a) = a.
Proof.
  destruct a as [s|s| |s m e]; try reflexivity.
  cbn [valid_binary JS.of_binary32]. intros H. pose proof H as H'.
  unfold bounded, canonical_mantissa in H'.
  apply andb_true_iff in H'. destruct H' as [Hc Hb].
  apply Z.eqb_eq in Hc. apply Z.leb_le in Hb.
  unfold JS.prec32, JS.emax32, JS.prec64, JS.emax64 in *.
  assert (Hd : exists d, e - fexp 53 1024 (Z.pos (digits2_pos m) + e) = Z.pos d).
  { unfold fexp, emin in *.
    destruct (e - Z.max (Z.pos (digits2_pos m) + e - 53) (3 - 1024 - 53)) as [|d|d] eqn:E;
      [lia|eauto|lia]. }
  destruct Hd as [d Hd].
  rewrite (binary_round_padded 53 1024 s m d e Hd) by (unfold fexp, emin in *; lia).
  cbn [JS.to_binary32]. apply binary_round_shifted; first [exact H | lia].
Qed.

(** What a [Float32Array] holds is left unchanged by a further store. *)
Lemma fround_idempotent (a : JS.number) : JS.fround (JS.fround a) = JS.fround a.
Proof.
  unfold JS.fround. rewrite to_of_binary32; [reflexivity|].
  destruct a as [s|s| |s m e]; try reflexivity.
  apply binary_round_valid. reflexivity.
Qed.

(* ================================================================== *)
(** ** Numbers *)
(* ================================================================== *)

Lemma number_eq_refl (a : JS.number) :
  JS.is_nan a = false -> JS.number_eq a a = true.
Proof.
  unfold JS.number_eq, SFeqb.
  destruct a as [s|s| |s m e]; cbn; try discriminate; intros _.
  - reflexivity.
  - destruct s; reflexivity.
  - rewrite Z.compare_refl, Pos.compare_cont_refl. destruct s; reflexivity.
Qed.

Lemma number_eq_nan_l (a : JS.number) : JS.number_eq JS.NaN a = false.
Proof. reflexivity. Qed.

Lemma number_eq_zeros (s s' : bool) : JS.number_eq (S754_zero s) (S754_zero s') = true.
Proof. reflexivity. Qed.

Lemma Math_max_cases (a b : JS.number) :
  JS.Math_max a b = a \/ JS.Math_max a b = b \/ JS.Math_max a b = JS.NaN.
Proof.
  unfold JS.Math_max. destruct (SFcompare a b) as [[| |]|]; auto.
  destruct a as [[|]| | |]; auto. destruct b as [[|]| | |]; auto.
Qed.

Lemma Math_min_cases (a b : JS.number) :
  JS.Math_min a b = a \/ JS.Math_min a b = b \/ JS.Math_min a b = JS.NaN.
Proof.
  unfold JS.Math_min. destruct (SFcompare a b) as [[| |]|]; auto.
  destruct a as [[|]| | |]; auto. destruct b as [[|]| | |]; auto.
Qed.

Lemma is_float32_NaN : is_float32 JS.NaN.
Proof. reflexivity. Qed.

Lemma is_float32_fround (a : JS.number) : is_float32 (JS.fround a).
Proof. apply fround_idempotent. Qed.

Lemma is_float32_clamp (v lo hi : JS.number) :
  is_float32 v -> is_float32 lo -> is_float32 hi ->
  is_float32 (Globals.clamp v lo hi).
Proof.
  intros Hv Hlo Hhi. unfold Globals.clamp.
  destruct (Math_min_cases hi v) as [E|[E|E]]; rewrite E;
    match goal with
    | |- is_float32 (JS.Math_max ?a ?b) =>
        destruct (Math_max_cases a b) as [F|[F|F]]; rewrite F
    end; auto using is_float32_NaN.
Qed.

(** [a + (b - a) * 0] when the difference is finite. *)
Lemma lerp_at_zero (a b : JS.number) :
  JS.is_finite (JS.sub b a) = true ->
  Globals.lerp a b JS.zero = a \/
  exists s s', a = S754_zero s /\ Globals.lerp a b JS.zero = S754_zero s'.
Proof.
  unfold Globals.lerp. intros Hf.
  assert (Hp : exists s, JS.mul (JS.sub b a) JS.zero = S754_zero s).
  { destruct (JS.sub b a) as [s|s| |s m e]; try discriminate; cbn; eauto. }
  destruct Hp as [sp Hp]. rewrite Hp.
  destruct a as [s|s| |s m e].
  - right. exists s. destruct s, sp; cbn; eauto.
  - destruct b as [s'|s'| |s' m' e']; try discriminate.
    + destruct s, s'; discriminate.
  - destruct b; discriminate.
  - left. reflexivity.
Qed.

(* ================================================================== *)
(** ** Typed arrays *)
(* ================================================================== *)

Lemma set_pair_0 (a b v : JS.number) :
  Float32Array.set [a; b] 0 v = [JS.fround v; b].
Proof. reflexivity. Qed.

Lemma set_pair_1 (a b v : JS.number) :
  Float32Array.set [a; b] 1 v = [a; JS.fround v].
Proof. reflexivity. Qed.

Lemma float32_pair_inv (c : Float32Array.t) :
  float32_pair c -> exists a b, c = [a; b] /\ is_float32 a /\ is_float32 b.
Proof.
  intros [Hl Hf]. destruct c as [|a [|b [|? ?]]]; try discriminate.
  inversion Hf as [|? ? Ha Hf']. inversion Hf' as [|? ? Hb _]. eauto.
Qed.

Lemma float32_pair_intro (a b : JS.number) :
  is_float32 a -> is_float32 b -> float32_pair [a; b].
Proof. intros; split; [reflexivity|auto]. Qed.

Lemma float32_pair_new : float32_pair (Float32Array.new 2).
Proof. apply float32_pair_intro; reflexivity. Qed.

Lemma float32_pair_set (c : Float32Array.t) (i : nat) (v : JS.number) :
  float32_pair c -> float32_pair (Float32Array.set c i v).
Proof.
  intros H. destruct (float32_pair_inv c H) as (a & b & -> & Ha & Hb).
  destruct i as [|[|i]]; cbn; auto using float32_pair_intro, is_float32_fround.
Qed.

(* ================================================================== *)
(** ** Parsing and construction *)
(* ================================================================== *)

Lemma parse_scalars (arg1 arg2 : Vector2D.value) :
  arg2 <> Vector2D.VUndefined ->
  Vector2D.parse arg1 arg2 =
  Vector2D.and_then (Vector2D.ToNumber arg1) (fun n1 =>
  Vector2D.and_then (Vector2D.ToNumber arg2) (fun n2 =>
  Vector2D.Normal [JS.fround n1; JS.fround n2])).
Proof.
  intros H. unfold Vector2D.parse, Vector2D.store.
  replace (negb (Vector2D.is_undefined arg2)) with true
    by (destruct arg2; try reflexivity; congruence).
  destruct (Vector2D.ToNumber arg1) as [n1|e1]; [|reflexivity]. cbn [Vector2D.and_then].
  destruct (Vector2D.ToNumber arg2) as [n2|e2]; reflexivity.
Qed.

Lemma parse_numbers (a b : JS.number) :
  Vector2D.parse (Vector2D.VNumber a) (Vector2D.VNumber b) =
  Vector2D.Normal [JS.fround a; JS.fround b].
Proof. reflexivity. Qed.

Lemma parse_array (a b : Vector2D.value) :
  Vector2D.parse (Vector2D.VArray [a; b]) Vector2D.VUndefined =
  Vector2D.and_then (Vector2D.ToNumber a) (fun na =>
  Vector2D.and_then (Vector2D.ToNumber b) (fun nb =>
  Vector2D.Normal [JS.fround na; JS.fround nb])).
Proof.
  unfold Vector2D.parse, Vector2D.store. cbn [Vector2D.is_undefined negb List.length Nat.eqb nth].
  destruct (Vector2D.ToNumber a) as [na|ea]; [|reflexivity]. cbn [Vector2D.and_then].
  destruct (Vector2D.ToNumber b) as [nb|eb]; reflexivity.
Qed.

Lemma parse_float32_pair (arg1 arg2 : Vector2D.value) (c : Float32Array.t) :
  Vector2D.parse arg1 arg2 = Vector2D.Normal c -> float32_pair c.
Proof.
  unfold Vector2D.parse, Vector2D.store.
  destruct (negb (Vector2D.is_undefined arg2)).
  - destruct (Vector2D.ToNumber arg1); [|discriminate].
    destruct (Vector2D.ToNumber arg2); [|discriminate].
    intros [= <-]. apply float32_pair_intro; apply is_float32_fround.
  - destruct (negb (Vector2D.is_undefined arg1)); [|discriminate].
    destruct arg1; try discriminate.
    + destruct (List.length elements =? 2)%nat; [|discriminate].
      destruct (Vector2D.ToNumber (nth 0 elements Vector2D.VUndefined)); [|discriminate].
      destruct (Vector2D.ToNumber (nth 1 elements Vector2D.VUndefined)); [|discriminate].
      intros [= <-]. apply float32_pair_intro; apply is_float32_fround.
    + intros [= <-]. apply float32_pair_intro; apply is_float32_fround.
Qed.

(** What the constructor does once parsing has succeeded, by the value
    of [options.history]. *)
Lemma new_after_parse (arg1 arg2 : Vector2D.value) (o : option Options.t)
      (c : Float32Array.t) :
  Vector2D.parse arg1 arg2 = Vector2D.Normal c ->
  let o' := match o with Some o => o | None => Options.empty end in
  Vector2D.new arg1 arg2 o =
  match Options.history o' with
  | Some k =>
      if negb (k =? 0) && (0 <? k)
      then Vector2D.Throw (Vector2D.TypeError_of_undefined "unshift")
      else Vector2D.Normal (Vector2D.Build o' c (Some c) None None None)
  | None => Vector2D.Normal (Vector2D.Build o' c (Some c) None None None)
  end.
Proof.
  intros Hp o'. unfold Vector2D.new. fold o'.
  cbv [Vector2D.set Vector2D.save Vector2D.bind Vector2D.lift Vector2D.write
       Vector2D.read Vector2D.set_coords Vector2D.set_saved Float32Array.slice
       Vector2D.options Vector2D.coords Vector2D.saved Vector2D.history
       Vector2D._min Vector2D._max].
  rewrite Hp.
  destruct (Options.history o') as [k|]; [|reflexivity].
  destruct (negb (k =? 0) && (0 <? k)); reflexivity.
Qed.

Lemma new_after_parse_error (arg1 arg2 : Vector2D.value) (o : option Options.t)
      (e : Vector2D.error) :
  Vector2D.parse arg1 arg2 = Vector2D.Throw e ->
  Vector2D.new arg1 arg2 o = Vector2D.Throw e.
Proof.
  intros Hp. unfold Vector2D.new.
  cbv [Vector2D.set Vector2D.bind Vector2D.lift]. rewrite Hp. reflexivity.
Qed.

Lemma new_default (arg1 arg2 : Vector2D.value) (c : Float32Array.t) :
  Vector2D.parse arg1 arg2 = Vector2D.Normal c ->
  Vector2D.new arg1 arg2 None =
  Vector2D.Normal (Vector2D.Build Options.empty c (Some c) None None None).
Proof. intros Hp. rewrite (new_after_parse _ _ None c Hp). reflexivity. Qed.

Lemma new_inv (arg1 arg2 : Vector2D.value) (o : option Options.t) (v : Vector2D.t) :
  Vector2D.new arg1 arg2 o = Vector2D.Normal v ->
  exists c, Vector2D.parse arg1 arg2 = Vector2D.Normal c /\
            Vector2D.coords v = c /\ Vector2D.saved v = Some c /\
            Vector2D.history v = None /\
            Vector2D._min v = None /\ Vector2D._max v = None.
Proof.
  intros H. destruct (Vector2D.parse arg1 arg2) as [c|e] eqn:Hp.
  - rewrite (new_after_parse _ _ o c Hp) in H. exists c. split; [reflexivity|].
    destruct (Options.history _) as [k|].
    + destruct (negb (k =? 0) && (0 <? k)); [discriminate|].
      injection H as <-. cbn. auto.
    + injection H as <-. cbn. auto.
  - rewrite (new_after_parse_error _ _ o e Hp) in H. discriminate.
Qed.

(** Every instance the constructor returns holds two binary32
    coordinates. *)
Lemma new_float32_pair (arg1 arg2 : Vector2D.value) (o : option Options.t)
      (v : Vector2D.t) :
  Vector2D.new arg1 arg2 o = Vector2D.Normal v -> float32_pair (Vector2D.coords v).
Proof.
  intros H. destruct (new_inv _ _ _ _ H) as (c & Hp & -> & _).
  exact (parse_float32_pair _ _ _ Hp).
Qed.

(* ================================================================== *)
(** ** save, dirty and the mutators *)
(* ================================================================== *)

Ltac run_method :=
  cbv [Vector2D.set Vector2D.save Vector2D.dirty Vector2D.hasValue Vector2D.add
       Vector2D.subtract Vector2D.lerpTo Vector2D.set_x Vector2D.set_y
       Vector2D.clamp Vector2D.x_of_bound Vector2D.y_of_bound
       Vector2D.bind Vector2D.lift Vector2D.write Vector2D.read Vector2D.ret
       Vector2D.throw Vector2D.set_coords Vector2D.set_saved Vector2D.set_history
       Vector2D.set_min Vector2D.set_max Float32Array.slice
       Vector2D.options Vector2D.coords Vector2D.saved Vector2D.history
       Vector2D._min Vector2D._max].

(** [save()] in one equation. *)
Lemma save_eq (this : Vector2D.t) :
  Vector2D.save this =
  let c := Vector2D.coords this in
  let this1 := Vector2D.set_saved c this in
  match Options.history (Vector2D.options this) with
  | Some k =>
      if negb (k =? 0) && (0 <? k) then
        match Vector2D.history this with
        | None => (Vector2D.Throw (Vector2D.TypeError_of_undefined "unshift"), this1)
        | Some h =>
            (Vector2D.Normal tt,
             Vector2D.set_history
               (if k <? Z.of_nat (List.length (c :: h)) then removelast (c :: h) else c :: h)
               this1)
        end
      else (Vector2D.Normal tt, this1)
  | None => (Vector2D.Normal tt, this1)
  end.
Proof.
  destruct this as [o c s h mn mx]. run_method.
  destruct (Options.history o) as [k|]; [|reflexivity].
  destruct (negb (k =? 0) && (0 <? k)); [|reflexivity].
  destruct h; reflexivity.
Qed.

Lemma save_inv (this this' : Vector2D.t) :
  Vector2D.save this = (Vector2D.Normal tt, this') ->
  Vector2D.coords this' = Vector2D.coords this /\
  Vector2D.saved this' = Some (Vector2D.coords this) /\
  Vector2D._min this' = Vector2D._min this /\
  Vector2D._max this' = Vector2D._max this.
Proof.
  rewrite save_eq. cbv zeta.
  destruct (Options.history _) as [k|].
  - destruct (negb (k =? 0) && (0 <? k)).
    + destruct (Vector2D.history this); [|discriminate].
      intros [= <-]. destruct this; cbn; auto.
    + intros [= <-]. destruct this; cbn; auto.
  - intros [= <-]. destruct this; cbn; auto.
Qed.

(** A mutator replaces [coords] and nothing else. *)
Lemma mutate_inv (mu : mutation) (this this' : Vector2D.t) :
  mutate mu this = (Vector2D.Normal tt, this') ->
  this' = Vector2D.set_coords (Vector2D.coords this') this /\
  (float32_pair (Vector2D.coords this) -> float32_pair (Vector2D.coords this')).
Proof.
  destruct this as [o c s h mn mx].
  destruct mu; cbn [mutate]; run_method;
    try (intros [= <-]; split; [reflexivity|];
         intros Hc; cbn; repeat apply float32_pair_set; exact Hc).
  destruct (Vector2D.parse arg1 arg2) as [c'|e] eqn:Hp; [|discriminate].
  intros [= <-]. split; [reflexivity|]. intros _. cbn.
  exact (parse_float32_pair _ _ _ Hp).
Qed.

Lemma dirty_eq (this : Vector2D.t) (s : Float32Array.t) :
  Vector2D.saved this = Some s ->
  Vector2D.dirty this = (Vector2D.Normal (differ (Vector2D.coords this) s), this).
Proof. destruct this as [o c s' h mn mx]. cbn. intros ->. reflexivity. Qed.

Lemma differ_refl (c : Float32Array.t) : no_nan c -> differ c c = false.
Proof.
  intros H. unfold differ.
  assert (Hi : forall i, Vector2D.strict_neq (Float32Array.get c i) (Float32Array.get c i) = false).
  { intros i. unfold Float32Array.get. destruct (nth_error c i) as [a|] eqn:E; [|reflexivity].
    cbn. rewrite number_eq_refl; [reflexivity|].
    apply nth_error_In in E. unfold no_nan in H. rewrite Forall_forall in H. auto. }
  now rewrite !Hi.
Qed.

(** With [history] holding an array no longer than the limit, [save()]
    keeps the newest [k] snapshots, newest first. *)
Lemma save_keeps_newest (this : Vector2D.t) (k : Z) (h : list Float32Array.t) :
  Options.history (Vector2D.options this) = Some k -> 0 < k ->
  Vector2D.history this = Some h -> Z.of_nat (List.length h) <= k ->
  Vector2D.save this =
  (Vector2D.Normal tt,
   Vector2D.set_history (firstn (Z.to_nat k) (Vector2D.coords this :: h))
     (Vector2D.set_saved (Vector2D.coords this) this)).
Proof.
  intros Ho Hk Hh Hl. rewrite save_eq, Ho, Hh. cbv zeta.
  replace (negb (k =? 0) && (0 <? k)) with true
    by (symmetry; apply andb_true_iff; split;
        [apply negb_true_iff, Z.eqb_neq; lia | apply Z.ltb_lt; lia]).
  do 2 f_equal. f_equal.
  destruct (k <? Z.of_nat (List.length (Vector2D.coords this :: h))) eqn:E.
  - apply Z.ltb_lt in E. cbn [List.length] in E.
    assert (Hlen : List.length (Vector2D.coords this :: h) = S (Z.to_nat k))
      by (cbn [List.length]; lia).
    rewrite removelast_firstn_len, Hlen. reflexivity.
  - apply Z.ltb_ge in E. rewrite firstn_all2; [reflexivity|lia].
Qed.

Lemma save_each_keeps_newest (cs : list Float32Array.t) :
  forall (this : Vector2D.t) (k : Z) (h : list Float32Array.t),
  Options.history (Vector2D.options this) = Some k -> 0 < k ->
  Vector2D.history this = Some h -> Z.of_nat (List.length h) <= k ->
  exists this',
    save_each cs this = (Vector2D.Normal tt, this') /\
    Vector2D.history this' = Some (firstn (Z.to_nat k) (rev cs ++ h)).
Proof.
  induction cs as [|c cs IH]; intros this k h Ho Hk Hh Hl.
  - exists this. split; [reflexivity|]. cbn. rewrite firstn_all2; [exact Hh|lia].
  - cbn [save_each]. unfold Vector2D.bind at 1. unfold Vector2D.write at 1.
    unfold Vector2D.bind at 1.
    rewrite (save_keeps_newest (Vector2D.set_coords c this) k h);
      try (destruct this; assumption).
    destruct (IH (Vector2D.set_history
                    (firstn (Z.to_nat k) (Vector2D.coords (Vector2D.set_coords c this) :: h))
                    (Vector2D.set_saved (Vector2D.coords (Vector2D.set_coords c this))
                       (Vector2D.set_coords c this)))
                 k (firstn (Z.to_nat k) (c :: h)))
      as (this' & Hs & Hh').
    + destruct this; exact Ho.
    + exact Hk.
    + destruct this; reflexivity.
    + rewrite length_firstn. lia.
    + exists this'. split; [exact Hs|]. rewrite Hh'. f_equal.
      cbn [rev]. rewrite <- app_assoc. cbn [app].
      rewrite !firstn_app. rewrite firstn_firstn.
      destruct (Nat.le_gt_cases (Z.to_nat k) (List.length (rev cs))) as [Hle|Hgt].
      * replace (Z.to_nat k - List.length (rev cs))%nat with 0%nat by lia. reflexivity.
      * f_equal. rewrite Nat.min_l by lia. reflexivity.
Qed.

(* ================================================================== *)
(** ** The bounded history *)
(* ================================================================== *)

(** C1, on the code as written: [history] is never given an array, so with
    [options.history = k > 0] the first [save()], the one the constructor
    makes, fails on [this.history.unshift] and no instance is returned; the
    bounded history the claim describes is never built. *)
Theorem new_with_history_throws (arg1 arg2 : Vector2D.value) (k : Z)
        (c : Float32Array.t) :
  0 < k ->
  Vector2D.parse arg1 arg2 = Vector2D.Normal c ->
  Vector2D.new arg1 arg2 (Some {| Options.history := Some k |}) =
  Vector2D.Throw (Vector2D.TypeError_of_undefined "unshift").
Proof.
  intros Hk Hp. rewrite (new_after_parse _ _ _ c Hp). cbn.
  replace (k =? 0) with false by (symmetry; apply Z.eqb_neq; lia).
  replace (0 <? k) with true by (symmetry; apply Z.ltb_lt; lia).
  reflexivity.
Qed.

Lemma new_with_history_throws_witness :
  0 < 2 /\
  Vector2D.parse (num 1) (num 2) = Vector2D.Normal [JS.of_Z 1; JS.of_Z 2] /\
  Vector2D.new (num 1) (num 2) (Some {| Options.history := Some 2 |}) =
  Vector2D.Throw (Vector2D.TypeError_of_undefined "unshift").
Proof.
  split; [lia|]. split; [reflexivity|].
  apply (new_with_history_throws (num 1) (num 2) 2 [JS.of_Z 1; JS.of_Z 2]);
    [lia|reflexivity].
Defined.

(** The same failure on an instance built without a history whose options
    object is given a limit afterwards. *)
Lemma save_without_history_array (this : Vector2D.t) (k : Z) :
  Options.history (Vector2D.options this) = Some k -> 0 < k ->
  Vector2D.history this = None ->
  fst (Vector2D.save this) = Vector2D.Throw (Vector2D.TypeError_of_undefined "unshift").
Proof.
  intros Ho Hk Hh. rewrite save_eq, Ho, Hh. cbv zeta.
  replace (k =? 0) with false by (symmetry; apply Z.eqb_neq; lia).
  replace (0 <? k) with true by (symmetry; apply Z.ltb_lt; lia).
  reflexivity.
Qed.

(** Had [history] started as an empty array, [m > k] calls of [save()]
    would leave exactly the [k] newest snapshots, newest first. *)
Lemma save_each_from_empty (cs : list Float32Array.t) (this : Vector2D.t) (k : Z) :
  Options.history (Vector2D.options this) = Some k -> 0 < k ->
  Vector2D.history this = Some [] -> k < Z.of_nat (List.length cs) ->
  exists this',
    save_each cs this = (Vector2D.Normal tt, this') /\
    Vector2D.history this' = Some (firstn (Z.to_nat k) (rev cs)) /\
    Z.of_nat (List.length (firstn (Z.to_nat k) (rev cs))) = k.
Proof.
  intros Ho Hk Hh Hm.
  destruct (save_each_keeps_newest cs this k [] Ho Hk Hh) as (this' & Hs & Hh');
    [cbn; lia|].
  exists this'. rewrite app_nil_r in Hh'. repeat split; auto.
  rewrite length_firstn, length_rev. lia.
Qed.

(* ================================================================== *)
(** ** dirty *)
(* ================================================================== *)

(** C2 as stated fails: an instance built with a NaN coordinate is dirty
    right after construction. *)
Lemma dirty_after_new_with_NaN :
  ~ (forall (arg1 arg2 : Vector2D.value) (v : Vector2D.t),
       Vector2D.new arg1 arg2 None = Vector2D.Normal v ->
       Vector2D.dirty v = (Vector2D.Normal false, v)).
Proof.
  intros H.
  specialize (H (Vector2D.VNumber JS.NaN) (num 0) _ eq_refl).
  discriminate H.
Qed.

(** C2, amended: [dirty] is true exactly when an axis of [coords] differs
    under [!==] from the same axis of [saved]; right after construction and
    right after [save()], [saved] is a copy of [coords], and [dirty] is
    false provided no coordinate is NaN; from such a state a mutating call
    (add, subtract, set, lerpTo, an axis setter) that changes a coordinate
    makes [dirty] true. *)
Theorem dirty_tracks_saved :
  (forall (this : Vector2D.t) (s : Float32Array.t),
     Vector2D.saved this = Some s ->
     Vector2D.dirty this = (Vector2D.Normal (differ (Vector2D.coords this) s), this))
  /\
  (forall (arg1 arg2 : Vector2D.value) (o : option Options.t) (v : Vector2D.t),
     Vector2D.new arg1 arg2 o = Vector2D.Normal v ->
     Vector2D.saved v = Some (Vector2D.coords v) /\
     (no_nan (Vector2D.coords v) -> Vector2D.dirty v = (Vector2D.Normal false, v)))
  /\
  (forall this this' : Vector2D.t,
     Vector2D.save this = (Vector2D.Normal tt, this') ->
     Vector2D.saved this' = Some (Vector2D.coords this') /\
     (no_nan (Vector2D.coords this') ->
      Vector2D.dirty this' = (Vector2D.Normal false, this')))
  /\
  (forall (this this' : Vector2D.t) (mu : mutation),
     Vector2D.saved this = Some (Vector2D.coords this) ->
     mutate mu this = (Vector2D.Normal tt, this') ->
     differ (Vector2D.coords this') (Vector2D.coords this) = true ->
     Vector2D.dirty this' = (Vector2D.Normal true, this')).
Proof.
  split; [exact dirty_eq|]. split; [|split].
  - intros arg1 arg2 o v H.
    destruct (new_inv _ _ _ _ H) as (c & _ & Hc & Hs & _). split; [congruence|].
    intros Hn. rewrite (dirty_eq v c Hs), Hc, differ_refl; [reflexivity|congruence].
  - intros this this' H.
    destruct (save_inv _ _ H) as (Hc & Hs & _). split; [congruence|].
    intros Hn. rewrite (dirty_eq _ _ Hs), <- Hc, differ_refl; [reflexivity|exact Hn].
  - intros this this' mu Hs Hm Hd.
    destruct (mutate_inv mu this this' Hm) as [E _].
    assert (Hs' : Vector2D.saved this' = Some (Vector2D.coords this))
      by (rewrite E; destruct this; exact Hs).
    rewrite (dirty_eq _ _ Hs'), Hd. reflexivity.
Qed.

Lemma dirty_tracks_saved_witness :
  let v := vec (JS.of_Z 1) (JS.of_Z 2) in
  let v' := Vector2D.set_coords [JS.of_Z 4; JS.of_Z 2] v in
  let v'' := Vector2D.set_saved [JS.of_Z 4; JS.of_Z 2] v' in
  Vector2D.new (num 1) (num 2) None = Vector2D.Normal v /\
  Vector2D.dirty v = (Vector2D.Normal false, v) /\
  Vector2D.add (JS.of_Z 3) JS.zero v = (Vector2D.Normal tt, v') /\
  Vector2D.dirty v' = (Vector2D.Normal true, v') /\
  Vector2D.save v' = (Vector2D.Normal tt, v'') /\
  Vector2D.dirty v'' = (Vector2D.Normal false, v'').
Proof.
  intros v v' v''.
  destruct dirty_tracks_saved as (_ & Hnew & Hsave & Hmut).
  split; [reflexivity|]. split; [|split; [reflexivity|split; [|split; [reflexivity|]]]].
  - apply (Hnew (num 1) (num 2) None v); [reflexivity|].
    repeat constructor.
  - apply (Hmut v v' (Add (JS.of_Z 3) JS.zero)); reflexivity.
  - apply (Hsave v' v''); [reflexivity|]. repeat constructor.
Defined.

(* ================================================================== *)
(** ** The parser's errors *)
(* ================================================================== *)

Lemma ToString_error_kind :
  forall (v : Vector2D.value) (e : Vector2D.error),
  Vector2D.ToString_error v = Some e -> conversion_error e.
Proof.
  unfold conversion_error.
  fix IH 1. intros v e. destruct v; cbn; try discriminate; try (intros [= <-]; auto).
  induction elements as [|x l IHl]; [discriminate|].
  destruct (Vector2D.ToString_error x) as [err|] eqn:E.
  - intros [= <-]. exact (IH x err E).
  - exact IHl.
Qed.

Lemma ToNumber_error_kind :
  forall (v : Vector2D.value) (e : Vector2D.error),
  Vector2D.ToNumber v = Vector2D.Throw e -> conversion_error e.
Proof.
  fix IH 1. intros v e. destruct v; cbn [Vector2D.ToNumber]; try discriminate;
    try (intros [= <-]; unfold conversion_error; auto).
  destruct (Vector2D.ToString_error (Vector2D.VArray elements)) as [err|] eqn:E.
  - intros [= <-]. exact (ToString_error_kind _ _ E).
  - destruct elements as [|x [|y l]]; try discriminate.
    pose proof (IH x e) as IHx.
    destruct x; try discriminate; try exact IHx.
    destruct n; try discriminate.
Qed.

(** ToNumber throws exactly on the values listed as unconvertible. *)
Lemma ToNumber_throws_iff :
  forall v : Vector2D.value,
  (exists e, Vector2D.ToNumber v = Vector2D.Throw e) <-> unconvertible v = true.
Proof.
  fix IH 1. intros v. destruct v; cbn [Vector2D.ToNumber unconvertible];
    try (split; [intros [e H]; discriminate H|discriminate]);
    try (split; [reflexivity|eauto]).
  destruct (Vector2D.ToString_error (Vector2D.VArray elements)) as [err|] eqn:E.
  - split; [reflexivity|eauto].
  - split; [|discriminate]. intros [e H]. exfalso.
    destruct elements as [|x [|y l]]; try discriminate H.
    cbn in E. destruct (Vector2D.ToString_error x) as [err|] eqn:Ex; [discriminate|].
    pose proof (proj1 (IH x)) as IHx.
    destruct x; try discriminate H; try discriminate Ex.
    + destruct n; discriminate H.
    + assert (Hx : unconvertible (Vector2D.VArray elements) = true)
        by (apply IHx; eauto).
      cbn [unconvertible] in Hx. rewrite Ex in Hx. discriminate.
Qed.

Lemma and_then_throws {A} (c1 c2 : Vector2D.completion JS.number)
      (k : JS.number -> JS.number -> A) (e : Vector2D.error) :
  Vector2D.and_then c1 (fun n1 =>
    Vector2D.and_then c2 (fun n2 => Vector2D.Normal (k n1 n2))) = Vector2D.Throw e ->
  c1 = Vector2D.Throw e \/ c2 = Vector2D.Throw e.
Proof.
  destruct c1 as [n1|e1]; [|intros [= <-]; auto].
  destruct c2 as [n2|e2]; [discriminate|intros [= <-]; auto].
Qed.

Lemma parse_scalars_no_own_error (arg1 arg2 : Vector2D.value) (message : string) :
  arg2 <> Vector2D.VUndefined ->
  Vector2D.parse arg1 arg2 <> Vector2D.Throw (Vector2D.TypeError message).
Proof.
  intros H Hp. rewrite (parse_scalars arg1 arg2 H) in Hp.
  destruct (and_then_throws _ _ _ _ Hp) as [E|E];
    destruct (ToNumber_error_kind _ _ E); discriminate.
Qed.

Lemma parse_pair_no_own_error (a b : Vector2D.value) (message : string) :
  Vector2D.parse (Vector2D.VArray [a; b]) Vector2D.VUndefined <>
  Vector2D.Throw (Vector2D.TypeError message).
Proof.
  intros Hp. rewrite parse_array in Hp.
  destruct (and_then_throws _ _ _ _ Hp) as [E|E];
    destruct (ToNumber_error_kind _ _ E); discriminate.
Qed.

Lemma length_2 {A} (l : list A) : List.length l = 2%nat -> exists a b, l = [a; b].
Proof. destruct l as [|a [|b [|? ?]]]; try discriminate. eauto. Qed.

(** The errors of its own that [parse] throws. *)
Lemma parse_throws_iff (arg1 arg2 : Vector2D.value) :
  (exists message, Vector2D.parse arg1 arg2 = Vector2D.Throw (Vector2D.TypeError message))
  <-> invalid_argument arg1 arg2.
Proof.
  unfold invalid_argument. split.
  - intros [message H].
    assert (Hu : arg2 = Vector2D.VUndefined).
    { destruct arg2; try reflexivity;
        exfalso; revert H; apply parse_scalars_no_own_error; discriminate. }
    subst arg2. split; [reflexivity|].
    destruct arg1; try discriminate H;
      try (right; left; repeat split; congruence); auto.
    left. exists elements. split; [reflexivity|]. intros Hl.
    destruct (length_2 _ Hl) as (a & b & ->).
    exact (parse_pair_no_own_error a b message H).
  - unfold Vector2D.parse.
    intros [-> [(l & -> & Hl)|[(Hu & Ha & Hv)| ->]]]; cbn.
    + apply Nat.eqb_neq in Hl. rewrite Hl. eauto.
    + destruct arg1; try discriminate; try congruence; cbn; eauto.
    + eauto.
Qed.

(** Whatever [parse] throws is one of its own errors or the error of a
    conversion. *)
Lemma parse_throws_kind (arg1 arg2 : Vector2D.value) (e : Vector2D.error) :
  Vector2D.parse arg1 arg2 = Vector2D.Throw e ->
  (exists message, e = Vector2D.TypeError message) \/ conversion_error e.
Proof.
  intros H.
  assert (Hc : forall a b,
             Vector2D.and_then (Vector2D.ToNumber a) (fun na =>
             Vector2D.and_then (Vector2D.ToNumber b) (fun nb =>
             Vector2D.Normal [JS.fround na; JS.fround nb])) = Vector2D.Throw e ->
             conversion_error e).
  { intros a b Hab. destruct (and_then_throws _ _ _ _ Hab) as [E|E];
      exact (ToNumber_error_kind _ _ E). }
  destruct (Vector2D.is_undefined arg2) eqn:Hu.
  - destruct arg2; try discriminate Hu.
    destruct arg1; try (injection H as <-; eauto); try discriminate H.
    destruct (List.length elements =? 2)%nat eqn:Hl.
    + apply Nat.eqb_eq in Hl. destruct (length_2 _ Hl) as (a & b & ->).
      rewrite parse_array in H. right. exact (Hc a b H).
    + unfold Vector2D.parse in H. cbn [Vector2D.is_undefined negb] in H.
      rewrite Hl in H. injection H as <-. eauto.
  - rewrite parse_scalars in H by (intros ->; discriminate Hu).
    right. exact (Hc arg1 arg2 H).
Qed.

Lemma parse_vector (v : Vector2D.t) :
  float32_pair (Vector2D.coords v) ->
  Vector2D.parse (Vector2D.VVector2D v) Vector2D.VUndefined =
  Vector2D.Normal (Vector2D.coords v).
Proof.
  intros H. destruct (float32_pair_inv _ H) as (a & b & E & Ha & Hb).
  unfold Vector2D.parse. rewrite E. cbn. rewrite Ha, Hb. reflexivity.
Qed.

(** C3 as stated fails on arrays of length 2: the elements 0.1 and 0.2 are
    stored rounded to binary32, so the buffer differs from the array; and an
    element that is a BigInt makes [parse] raise the runtime's TypeError,
    in none of the three cases of the claim. *)
Lemma parse_array_not_copied :
  (exists c,
     Vector2D.parse
       (Vector2D.VArray [Vector2D.VNumber one_tenth;
                         Vector2D.VNumber (JS.StringToNumber "0.2")])
       Vector2D.VUndefined = Vector2D.Normal c /\
     differ c [one_tenth; JS.StringToNumber "0.2"] = true)
  /\
  (Vector2D.parse (Vector2D.VArray [Vector2D.VBigInt 1; num 2]) Vector2D.VUndefined =
   Vector2D.Throw Vector2D.TypeError_of_conversion /\
   ~ invalid_argument (Vector2D.VArray [Vector2D.VBigInt 1; num 2]) Vector2D.VUndefined).
Proof.
  split.
  - eexists. split; [reflexivity|]. vm_compute. reflexivity.
  - split; [reflexivity|].
    intros [_ [(l & [= <-] & Hl)|[(_ & Ha & _)|H]]];
      [apply Hl; reflexivity|discriminate Ha|discriminate H].
Qed.

(** C3, amended: [parse] throws one of its own three TypeErrors exactly
    when its second argument is [undefined] and the first is an array whose
    length is not 2, or is neither an array nor a Vector2D, or is
    [undefined] as well; [set] and the constructor throw such an error in
    exactly those cases; the only other failure of [parse] is the error of
    a conversion to a Number.  An array of length 2 has each element
    converted to a Number and stored rounded to binary32, and [parse] fails
    with the conversion's error when an element does not convert; elements
    that are binary32 Numbers are copied as they are, and so are the
    coordinates of a Vector2D. *)
Theorem parse_raises_own_errors :
  (forall arg1 arg2 : Vector2D.value,
     (exists message,
        Vector2D.parse arg1 arg2 = Vector2D.Throw (Vector2D.TypeError message)) <->
     invalid_argument arg1 arg2)
  /\
  (forall (arg1 arg2 : Vector2D.value) (e : Vector2D.error),
     Vector2D.parse arg1 arg2 = Vector2D.Throw e ->
     (exists message, e = Vector2D.TypeError message) \/ conversion_error e)
  /\
  (forall (arg1 arg2 : Vector2D.value) (this : Vector2D.t),
     (exists message,
        fst (Vector2D.set arg1 arg2 this) = Vector2D.Throw (Vector2D.TypeError message)) <->
     invalid_argument arg1 arg2)
  /\
  (forall (arg1 arg2 : Vector2D.value) (o : option Options.t),
     (exists message,
        Vector2D.new arg1 arg2 o = Vector2D.Throw (Vector2D.TypeError message)) <->
     invalid_argument arg1 arg2)
  /\
  (forall a b : Vector2D.value,
     Vector2D.parse (Vector2D.VArray [a; b]) Vector2D.VUndefined =
     Vector2D.and_then (Vector2D.ToNumber a) (fun na =>
     Vector2D.and_then (Vector2D.ToNumber b) (fun nb =>
     Vector2D.Normal [JS.fround na; JS.fround nb])))
  /\
  (forall a b : JS.number,
     is_float32 a -> is_float32 b ->
     Vector2D.parse (Vector2D.VArray [Vector2D.VNumber a; Vector2D.VNumber b])
       Vector2D.VUndefined = Vector2D.Normal [a; b])
  /\
  (forall v : Vector2D.t,
     float32_pair (Vector2D.coords v) ->
     Vector2D.parse (Vector2D.VVector2D v) Vector2D.VUndefined =
     Vector2D.Normal (Vector2D.coords v)).
Proof.
  split; [exact parse_throws_iff|].
  split; [exact parse_throws_kind|].
  split; [|split; [|split; [exact parse_array|split; [|exact parse_vector]]]].
  - intros arg1 arg2 this. rewrite <- parse_throws_iff.
    unfold Vector2D.set, Vector2D.bind, Vector2D.lift.
    destruct (Vector2D.parse arg1 arg2) as [c|e]; cbn; split; intros [message H];
      try discriminate; exists message; injection H as ->; reflexivity.
  - intros arg1 arg2 o. rewrite <- parse_throws_iff. split.
    + intros [message H].
      destruct (Vector2D.parse arg1 arg2) as [c|e] eqn:Hp.
      * rewrite (new_after_parse _ _ o c Hp) in H. exfalso.
        destruct (Options.history _) as [k|]; [|discriminate].
        destruct (negb (k =? 0) && (0 <? k)); discriminate.
      * rewrite (new_after_parse_error _ _ o e Hp) in H. injection H as ->. eauto.
    + intros [message Hp]. exists message. exact (new_after_parse_error _ _ o _ Hp).
  - intros a b Ha Hb. rewrite parse_array. cbn. rewrite Ha, Hb. reflexivity.
Qed.

Lemma parse_raises_own_errors_witness :
  let v := vec (JS.of_Z 15) (JS.of_Z (-5)) in
  Vector2D.parse (Vector2D.VVector2D v) Vector2D.VUndefined =
  Vector2D.Normal (Vector2D.coords v)
  /\
  Vector2D.parse (Vector2D.VArray [num 3; num (-2)]) Vector2D.VUndefined =
  Vector2D.Normal [JS.of_Z 3; JS.of_Z (-2)]
  /\
  exists message,
    Vector2D.parse (Vector2D.VArray [num 1; num 2; num 3]) Vector2D.VUndefined =
    Vector2D.Throw (Vector2D.TypeError message).
Proof.
  destruct parse_raises_own_errors as (Hiff & _ & _ & _ & _ & Harr & Hvec).
  split; [|split].
  - apply Hvec. apply float32_pair_intro; reflexivity.
  - apply (Harr (JS.of_Z 3) (JS.of_Z (-2))); reflexivity.
  - apply (proj2 (Hiff (Vector2D.VArray [num 1; num 2; num 3]) Vector2D.VUndefined)).
    split; [reflexivity|]. left. eexists. split; [reflexivity|]. cbn. lia.
Defined.

(* ================================================================== *)
(** ** Bounds and clamping *)
(* ================================================================== *)

(** A bound set by [min] or [max] is an instance of its own. *)
Lemma min_inv (x y : Vector2D.value) (this this' : Vector2D.t) :
  Vector2D.min x y this = (Vector2D.Normal tt, this') ->
  exists b, Vector2D.new x y None = Vector2D.Normal b /\
            this' = Vector2D.set_min b this /\ float32_pair (Vector2D.coords b).
Proof.
  unfold Vector2D.min, Vector2D.bind, Vector2D.lift, Vector2D.write.
  destruct (Vector2D.new x y None) as [b|e] eqn:Hn; [|discriminate].
  intros [= <-]. exists b. split; [reflexivity|]. split; [reflexivity|].
  exact (new_float32_pair _ _ _ _ Hn).
Qed.

Lemma max_inv (x y : Vector2D.value) (this this' : Vector2D.t) :
  Vector2D.max x y this = (Vector2D.Normal tt, this') ->
  exists b, Vector2D.new x y None = Vector2D.Normal b /\
            this' = Vector2D.set_max b this /\ float32_pair (Vector2D.coords b).
Proof.
  unfold Vector2D.max, Vector2D.bind, Vector2D.lift, Vector2D.write.
  destruct (Vector2D.new x y None) as [b|e] eqn:Hn; [|discriminate].
  intros [= <-]. exists b. split; [reflexivity|]. split; [reflexivity|].
  exact (new_float32_pair _ _ _ _ Hn).
Qed.

(** The constructor returns a well-formed instance and every call keeps
    it so, whether it returns or throws. *)
Lemma new_well_formed (arg1 arg2 : Vector2D.value) (o : option Options.t)
      (v : Vector2D.t) :
  Vector2D.new arg1 arg2 o = Vector2D.Normal v -> well_formed v.
Proof.
  intros H. split; [exact (new_float32_pair _ _ _ _ H)|].
  destruct (new_inv _ _ _ _ H) as (c & _ & _ & _ & _ & -> & ->). split; exact I.
Qed.

Lemma run_well_formed (c : call) (this : Vector2D.t) :
  well_formed this -> well_formed (snd (run c this)).
Proof.
  intros (Hc & Hmn & Hmx). destruct c as [mu| |x y|x y|]; cbn [run].
  - destruct (mutate mu this) as [[[]|e] this'] eqn:E; cbn [snd].
    + destruct (mutate_inv mu this this' E) as [E' Hc'].
      rewrite E'. destruct this; cbn in *.
      split; [exact (Hc' Hc)|split; assumption].
    + destruct this as [o c s h mn mx].
      destruct mu; cbn [mutate] in E; revert E; run_method; try discriminate.
      destruct (Vector2D.parse arg1 arg2); [discriminate|].
      intros [= _ <-]. split; [|split]; assumption.
  - rewrite save_eq. cbv zeta.
    destruct (Options.history _) as [k|]; [destruct (negb (k =? 0) && (0 <? k));
      [destruct (Vector2D.history this)|]|];
      destruct this; cbn in *; (split; [|split]; assumption).
  - unfold Vector2D.min, Vector2D.bind, Vector2D.lift, Vector2D.write.
    destruct (Vector2D.new x y None) as [b|e] eqn:Hn; cbn [snd];
      [|split; [|split]; assumption].
    destruct this; cbn in *. split; [|split]; try assumption.
    exact (new_float32_pair _ _ _ _ Hn).
  - unfold Vector2D.max, Vector2D.bind, Vector2D.lift, Vector2D.write.
    destruct (Vector2D.new x y None) as [b|e] eqn:Hn; cbn [snd];
      [|split; [|split]; assumption].
    destruct this; cbn in *. split; [|split]; try assumption.
    exact (new_float32_pair _ _ _ _ Hn).
  - destruct (float32_pair_inv _ Hc) as (c0 & c1 & Ec & _).
    destruct this as [o c s h [mn|] [mx|]]; cbn in Ec; subst c; run_method; cbn [snd];
      try (split; [|split]; assumption).
    split; [|split; assumption].
    apply float32_pair_intro; apply is_float32_fround.
Qed.

Lemma clamp_eq (this mn mx : Vector2D.t) (c0 c1 lo0 lo1 hi0 hi1 : JS.number) :
  Vector2D._min this = Some mn -> Vector2D._max this = Some mx ->
  Vector2D.coords this = [c0; c1] ->
  Vector2D.coords mn = [lo0; lo1] -> Vector2D.coords mx = [hi0; hi1] ->
  Vector2D.clamp this =
  (Vector2D.Normal tt,
   Vector2D.set_coords
     [JS.fround (Globals.clamp c0 lo0 hi0); JS.fround (Globals.clamp c1 lo1 hi1)] this).
Proof.
  destruct this as [o c s h mn' mx']. cbn. intros -> -> ->.
  destruct mn as [? cmn ? ? ? ?], mx as [? cmx ? ? ? ?]. cbn. intros -> ->.
  reflexivity.
Qed.

(** C4: once both bounds are set, [clamp()] replaces each coordinate [v]
    by [max(lo, min(hi, v))], with [lo] and [hi] the same axis of the stored
    [_min] and [_max], and changes nothing else; with bounds (0,0) and
    (10,10), (15,-5) becomes (10,0). *)
Theorem clamp_between_bounds (this mn mx : Vector2D.t) :
  well_formed this ->
  Vector2D._min this = Some mn -> Vector2D._max this = Some mx ->
  let v i := Vector2D.to_number (Float32Array.get (Vector2D.coords this) i) in
  let lo i := Vector2D.to_number (Float32Array.get (Vector2D.coords mn) i) in
  let hi i := Vector2D.to_number (Float32Array.get (Vector2D.coords mx) i) in
  Vector2D.clamp this =
  (Vector2D.Normal tt,
   Vector2D.set_coords
     [JS.Math_max (lo 0%nat) (JS.Math_min (hi 0%nat) (v 0%nat));
      JS.Math_max (lo 1%nat) (JS.Math_min (hi 1%nat) (v 1%nat))] this).
Proof.
  intros (Hc & Hlo & Hhi) Hmn Hmx. rewrite Hmn in Hlo. rewrite Hmx in Hhi.
  cbn [bound_ok] in Hlo, Hhi.
  destruct (float32_pair_inv _ Hc) as (c0 & c1 & Ec & Hc0 & Hc1).
  destruct (float32_pair_inv _ Hlo) as (lo0 & lo1 & Elo & Hlo0 & Hlo1).
  destruct (float32_pair_inv _ Hhi) as (hi0 & hi1 & Ehi & Hhi0 & Hhi1).
  rewrite (clamp_eq this mn mx c0 c1 lo0 lo1 hi0 hi1 Hmn Hmx Ec Elo Ehi).
  rewrite Ec, Elo, Ehi. cbn.
  rewrite (is_float32_clamp c0 lo0 hi0), (is_float32_clamp c1 lo1 hi1) by assumption.
  reflexivity.
Qed.

Lemma clamp_between_bounds_witness :
  exists this0 this1 this2 this3,
    Vector2D.new (num 15) (num (-5)) None = Vector2D.Normal this0 /\
    Vector2D.min (num 0) (num 0) this0 = (Vector2D.Normal tt, this1) /\
    Vector2D.max (num 10) (num 10) this1 = (Vector2D.Normal tt, this2) /\
    Vector2D.clamp this2 = (Vector2D.Normal tt, this3) /\
    Vector2D.coords this3 = [JS.of_Z 10; JS.of_Z 0].
Proof.
  pose (this0 := vec (JS.of_Z 15) (JS.of_Z (-5))).
  pose (this1 := Vector2D.set_min (vec (JS.of_Z 0) (JS.of_Z 0)) this0).
  pose (this2 := Vector2D.set_max (vec (JS.of_Z 10) (JS.of_Z 10)) this1).
  exists this0, this1, this2. eexists.
  split; [reflexivity|]. split; [reflexivity|]. split; [reflexivity|]. split.
  - apply (clamp_between_bounds this2 (vec (JS.of_Z 0) (JS.of_Z 0))
             (vec (JS.of_Z 10) (JS.of_Z 10)));
      [|reflexivity|reflexivity].
    repeat split; repeat constructor.
  - reflexivity.
Defined.

Lemma Math_min_NaN_l (b : JS.number) : JS.Math_min JS.NaN b = JS.NaN.
Proof. reflexivity. Qed.

Lemma Math_max_NaN_l (b : JS.number) : JS.Math_max JS.NaN b = JS.NaN.
Proof. reflexivity. Qed.

(** C5, on the code as written: [limited()] reads [this.min.x] and
    [this.max.x], which are [undefined] whatever the stored bounds are, so
    the vector it returns has both coordinates NaN; the receiver is left
    unchanged.  With bounds (0,0) and (10,10) on (15,-5) the result is
    (NaN, NaN), not (10, 0). *)
Theorem limited_ignores_bounds (this : Vector2D.t) :
  Vector2D.limited this = (Vector2D.Normal (vec JS.NaN JS.NaN), this).
Proof.
  unfold Vector2D.limited, Vector2D.lift.
  change (Vector2D.to_number Vector2D.x_of_method) with JS.NaN.
  rewrite !Math_min_NaN_l, !Math_max_NaN_l.
  rewrite (new_default _ _ [JS.NaN; JS.NaN]); [reflexivity|].
  apply parse_scalars. discriminate.
Qed.

Example limited_example :
  let this := Vector2D.set_max (vec (JS.of_Z 10) (JS.of_Z 10))
                (Vector2D.set_min (vec JS.zero JS.zero)
                   (vec (JS.of_Z 15) (JS.of_Z (-5)))) in
  exists r,
    Vector2D.limited this = (Vector2D.Normal r, this) /\
    Vector2D.coords r = [JS.NaN; JS.NaN] /\
    Vector2D.coords this = [JS.of_Z 15; JS.of_Z (-5)].
Proof. intros this. eexists. repeat split. Qed.

(** C6 as stated fails on (15,-5) with no bound set: what [clamp()] raises
    is not an error the source throws, and [limited()] raises nothing. *)
Lemma clamp_family_without_bounds :
  let this := vec (JS.of_Z 15) (JS.of_Z (-5)) in
  Vector2D._min this = None /\ Vector2D._max this = None /\
  (forall message,
     fst (Vector2D.clamp this) <> Vector2D.Throw (Vector2D.TypeError message)) /\
  (forall e, fst (Vector2D.limited this) <> Vector2D.Throw e).
Proof. repeat split; discriminate. Qed.

(** C6, amended: [clamp()] called before both bounds are set fails with the
    runtime's TypeError for reading [x] on an absent bound, and leaves the
    instance as it was. *)
Theorem clamp_without_bounds_throws (this : Vector2D.t) :
  Vector2D._min this = None \/ Vector2D._max this = None ->
  Vector2D.clamp this = (Vector2D.Throw (Vector2D.TypeError_of_undefined "x"), this).
Proof.
  destruct this as [o c s h mn mx]. cbn [Vector2D._min Vector2D._max].
  intros [-> | ->]; [|destruct mn]; reflexivity.
Qed.

Lemma clamp_without_bounds_throws_witness :
  let this := vec (JS.of_Z 15) (JS.of_Z (-5)) in
  Vector2D._min this = None /\
  Vector2D.clamp this = (Vector2D.Throw (Vector2D.TypeError_of_undefined "x"), this).
Proof.
  intros this. split; [reflexivity|].
  apply (clamp_without_bounds_throws this). left. reflexivity.
Defined.

(* ================================================================== *)
(** ** hasValue and the accessors *)
(* ================================================================== *)

(** C8, on the code as written: [hasValue()] also tests [coords[2]], which
    is [undefined] in a two-element buffer and so differs from 0: the
    method returns true for every instance, the zero vector included. *)
Theorem hasValue_always_true (this : Vector2D.t) :
  List.length (Vector2D.coords this) = 2%nat ->
  Vector2D.hasValue this = (Vector2D.Normal true, this).
Proof.
  destruct this as [o c s h mn mx]. cbn [Vector2D.coords].
  destruct c as [|a [|b [|? ?]]]; try discriminate. intros _.
  run_method. cbn. rewrite !orb_true_r. reflexivity.
Qed.

Lemma hasValue_always_true_witness :
  let this := vec JS.zero JS.zero in
  Vector2D.new (num 0) (num 0) None = Vector2D.Normal this /\
  Vector2D.hasValue this = (Vector2D.Normal true, this).
Proof.
  intros this. split; [reflexivity|].
  apply (hasValue_always_true this). reflexivity.
Defined.

(** C9 as stated fails: 0.1 and 0.2 are not binary32 values, so the
    accessors do not give them back. *)
Lemma accessors_of_new_round :
  ~ (forall (a b : JS.number) (v : Vector2D.t),
       JS.is_finite a = true -> JS.is_finite b = true ->
       Vector2D.new (Vector2D.VNumber a) (Vector2D.VNumber b) None = Vector2D.Normal v ->
       Vector2D.strict_neq (Vector2D.x v) (Some a) = false /\
       Vector2D.strict_neq (Vector2D.y v) (Some b) = false).
Proof.
  intros H.
  destruct (H one_tenth (JS.StringToNumber "0.2") _ eq_refl eq_refl eq_refl) as [Hx _].
  discriminate Hx.
Qed.

(** C9, amended: [new Vector2D(a, b)] succeeds for all Numbers [a] and
    [b], and its accessors give [a] and [b] rounded to binary32; so
    [.x === a] and [.y === b] hold for the pairs of binary32 values other
    than NaN. *)
Theorem accessors_of_new (a b : JS.number) :
  Vector2D.new (Vector2D.VNumber a) (Vector2D.VNumber b) None = Vector2D.Normal (vec a b)
  /\ Vector2D.x (vec a b) = Some (JS.fround a)
  /\ Vector2D.y (vec a b) = Some (JS.fround b)
  /\ (is_float32 a -> JS.is_nan a = false ->
      Vector2D.strict_neq (Vector2D.x (vec a b)) (Some a) = false)
  /\ (is_float32 b -> JS.is_nan b = false ->
      Vector2D.strict_neq (Vector2D.y (vec a b)) (Some b) = false).
Proof.
  split; [reflexivity|]. split; [reflexivity|]. split; [reflexivity|].
  split; intros Hf Hn; cbn; rewrite Hf, number_eq_refl by exact Hn; reflexivity.
Qed.

Lemma accessors_of_new_witness :
  is_float32 (JS.of_Z 15) /\ JS.is_nan (JS.of_Z 15) = false /\
  Vector2D.strict_neq (Vector2D.x (vec (JS.of_Z 15) (JS.of_Z (-5)))) (Some (JS.of_Z 15)) = false.
Proof.
  split; [reflexivity|]. split; [reflexivity|].
  apply (accessors_of_new (JS.of_Z 15) (JS.of_Z (-5))); reflexivity.
Defined.

(* ================================================================== *)
(** ** Scalar arguments are not validated *)
(* ================================================================== *)

(** C10 as stated fails: with a second argument supplied, a first
    argument that is a BigInt makes [parse], and the constructor, raise the
    runtime's TypeError. *)
Lemma parse_scalars_can_throw :
  num 2 <> Vector2D.VUndefined /\
  Vector2D.parse (Vector2D.VBigInt 1) (num 2) =
  Vector2D.Throw Vector2D.TypeError_of_conversion /\
  Vector2D.new (Vector2D.VBigInt 1) (num 2) None =
  Vector2D.Throw Vector2D.TypeError_of_conversion.
Proof. split; [discriminate|]. split; reflexivity. Qed.

(** C10, amended: with a second argument other than [undefined], [parse]
    validates nothing and throws none of its own errors: it converts both
    arguments to Numbers, the first one first, and stores them rounded to
    binary32; it fails only when a conversion throws (on a BigInt, a Symbol,
    an object whose conversion throws, or an array holding a Symbol or such
    an object), with that conversion's error; otherwise the constructor
    returns an instance with that buffer; [(undefined, 5)] gives (NaN, 5)
    and [("a", "b")] gives (NaN, NaN). *)
Theorem parse_scalars_unvalidated (arg1 arg2 : Vector2D.value) :
  arg2 <> Vector2D.VUndefined ->
  Vector2D.parse arg1 arg2 =
  Vector2D.and_then (Vector2D.ToNumber arg1) (fun n1 =>
  Vector2D.and_then (Vector2D.ToNumber arg2) (fun n2 =>
  Vector2D.Normal [JS.fround n1; JS.fround n2]))
  /\ (forall message,
        Vector2D.parse arg1 arg2 <> Vector2D.Throw (Vector2D.TypeError message))
  /\ ((exists e, Vector2D.parse arg1 arg2 = Vector2D.Throw e) <->
      unconvertible arg1 = true \/ unconvertible arg2 = true)
  /\ (forall n1 n2,
        Vector2D.ToNumber arg1 = Vector2D.Normal n1 ->
        Vector2D.ToNumber arg2 = Vector2D.Normal n2 ->
        Vector2D.new arg1 arg2 None = Vector2D.Normal (vec n1 n2))
  /\ Vector2D.new Vector2D.VUndefined (num 5) None =
     Vector2D.Normal (vec JS.NaN (JS.of_Z 5))
  /\ Vector2D.new (Vector2D.VString "a") (Vector2D.VString "b") None =
     Vector2D.Normal (vec JS.NaN JS.NaN).
Proof.
  intros H. pose proof (parse_scalars arg1 arg2 H) as Hp.
  split; [exact Hp|].
  split; [intros message; exact (parse_scalars_no_own_error arg1 arg2 message H)|].
  split; [|split; [|split; reflexivity]].
  - rewrite Hp, <- !ToNumber_throws_iff. split.
    + intros [e He]. destruct (and_then_throws _ _ _ _ He); eauto.
    + intros [[e He]|[e He]]; rewrite He.
      * exists e. reflexivity.
      * destruct (Vector2D.ToNumber arg1) as [n1|e1]; eexists; reflexivity.
  - intros n1 n2 H1 H2. apply new_default. rewrite Hp, H1, H2. reflexivity.
Qed.

Lemma parse_scalars_unvalidated_witness :
  Vector2D.VString "b" <> Vector2D.VUndefined /\
  Vector2D.parse (Vector2D.VString "a") (Vector2D.VString "b") =
  Vector2D.Normal [JS.NaN; JS.NaN] /\
  Vector2D.new (Vector2D.VBoolean true) (Vector2D.VString " 2.5 ") None =
  Vector2D.Normal (vec (JS.of_Z 1) (JS.StringToNumber "2.5")).
Proof.
  split; [discriminate|]. split.
  - apply (parse_scalars_unvalidated (Vector2D.VString "a") (Vector2D.VString "b")).
    discriminate.
  - apply (parse_scalars_unvalidated (Vector2D.VBoolean true) (Vector2D.VString " 2.5 "));
      [discriminate|reflexivity|reflexivity].
Defined.

(* ================================================================== *)
(** ** copy and opposite *)
(* ================================================================== *)

(** [copy()] returns an instance with the receiver's coordinates and a
    snapshot of its own, and no bounds. *)
Lemma copy_eq (this : Vector2D.t) :
  float32_pair (Vector2D.coords this) ->
  Vector2D.copy this =
  (Vector2D.Normal
     (Vector2D.Build Options.empty (Vector2D.coords this)
        (Some (Vector2D.coords this)) None None None),
   this).
Proof.
  intros H. unfold Vector2D.copy, Vector2D.lift.
  rewrite (new_default _ _ _ (parse_vector this H)). reflexivity.
Qed.

Example opposite_example :
  fst (Vector2D.opposite (vec (JS.of_Z 3) (JS.of_Z (-2)))) =
  Vector2D.Normal (vec (JS.of_Z (-3)) (JS.of_Z 2)).
Proof. reflexivity. Qed.

(* ================================================================== *)
(** ** The interpolation factory *)
(* ================================================================== *)

Lemma lerp_eq (v1 v2 : Vector2D.t) (amt : JS.number) :
  let a i := Vector2D.to_number (Float32Array.get (Vector2D.coords v1) i) in
  let b i := Vector2D.to_number (Float32Array.get (Vector2D.coords v2) i) in
  Vector2D.lerp v1 v2 amt =
  Vector2D.Normal (vec (Globals.lerp (a 0%nat) (b 0%nat) amt)
                       (Globals.lerp (a 1%nat) (b 1%nat) amt)).
Proof. reflexivity. Qed.

(** C7 as stated fails in three places: the result is the formula's value
    rounded to binary32, which at [amt = 0.1] between 0 and 1 is not 0.1;
    at [amt = 0] an infinite coordinate of [v2] gives NaN, not the
    coordinate of [v1]; at [amt = 1] the sum [v1 + (v2 - v1)] is rounded,
    and between 2^30 and 2^-30 it gives 0, not 2^-30. *)
Lemma lerp_is_rounded :
  (exists r,
     Vector2D.lerp (vec JS.zero JS.zero) (vec (JS.of_Z 1) JS.zero) one_tenth =
     Vector2D.Normal r /\
     Vector2D.strict_neq (Vector2D.x r)
       (Some (JS.add JS.zero (JS.mul (JS.sub (JS.of_Z 1) JS.zero) one_tenth))) = true)
  /\
  (exists r,
     Vector2D.lerp (vec JS.zero JS.zero) (vec JS.Infinity JS.zero) JS.zero =
     Vector2D.Normal r /\
     Vector2D.strict_neq (Vector2D.x r) (Vector2D.x (vec JS.zero JS.zero)) = true)
  /\
  (exists r,
     Vector2D.lerp (vec (JS.dyadic 1 30) JS.zero) (vec (JS.dyadic 1 (-30)) JS.zero) (JS.of_Z 1) =
     Vector2D.Normal r /\
     Vector2D.strict_neq (Vector2D.x r) (Vector2D.x (vec (JS.dyadic 1 (-30)) JS.zero)) = true).
Proof.
  split; [|split]; eexists; (split; [reflexivity|]); vm_compute; reflexivity.
Qed.

(** C7, amended: [lerp(v1, v2, amt)] returns a new instance whose
    coordinates are [v1.axis + (v2.axis - v1.axis) * amt], evaluated on
    Numbers and rounded to binary32, and takes nothing but the coordinates
    of [v1] and [v2]; at [amt = 0] the result equals [v1] on every axis when
    each difference [v2.axis - v1.axis] is finite; and
    [lerp(Vector(0,0), Vector(10,4), 0.5)] is [Vector(5,2)]. *)
Theorem lerp_interpolates (v1 v2 : Vector2D.t) (amt : JS.number) :
  let a i := Vector2D.to_number (Float32Array.get (Vector2D.coords v1) i) in
  let b i := Vector2D.to_number (Float32Array.get (Vector2D.coords v2) i) in
  Vector2D.lerp v1 v2 amt =
  Vector2D.Normal
    (vec (JS.add (a 0%nat) (JS.mul (JS.sub (b 0%nat) (a 0%nat)) amt))
         (JS.add (a 1%nat) (JS.mul (JS.sub (b 1%nat) (a 1%nat)) amt)))
  /\
  (float32_pair (Vector2D.coords v1) ->
   JS.is_finite (JS.sub (b 0%nat) (a 0%nat)) = true ->
   JS.is_finite (JS.sub (b 1%nat) (a 1%nat)) = true ->
   exists r, Vector2D.lerp v1 v2 JS.zero = Vector2D.Normal r /\
             differ (Vector2D.coords r) (Vector2D.coords v1) = false)
  /\
  Vector2D.lerp (vec JS.zero JS.zero) (vec (JS.of_Z 10) (JS.of_Z 4)) one_half =
  Vector2D.Normal (vec (JS.of_Z 5) (JS.of_Z 2)).
Proof.
  intros a b. split; [reflexivity|]. split; [|reflexivity].
  intros Hc H0 H1. eexists. split; [apply lerp_eq|].
  destruct (float32_pair_inv _ Hc) as (a0 & a1 & Ec & Ha0 & Ha1).
  subst a b. cbv beta in *. rewrite Ec in *. cbn in H0, H1.
  unfold differ, vec. cbn.
  assert (Hax : forall x y, is_float32 x -> JS.is_finite (JS.sub y x) = true ->
                JS.number_eq (JS.fround (Globals.lerp x y JS.zero)) x = true).
  { intros x y Hx Hf. destruct (lerp_at_zero x y Hf) as [E|(s & s' & -> & E)]; rewrite E.
    - rewrite Hx. apply number_eq_refl.
      destruct x; try reflexivity. destruct y; discriminate.
    - reflexivity. }
  rewrite (Hax a0 _ Ha0 H0), (Hax a1 _ Ha1 H1). reflexivity.
Qed.

Lemma lerp_interpolates_witness :
  let v1 := vec (JS.of_Z 3) (JS.of_Z (-2)) in
  let v2 := vec (JS.of_Z 10) (JS.of_Z 4) in
  exists r, Vector2D.lerp v1 v2 JS.zero = Vector2D.Normal r /\
            differ (Vector2D.coords r) (Vector2D.coords v1) = false.
Proof.
  intros v1 v2.
  apply (lerp_interpolates v1 v2 JS.zero);
    [apply float32_pair_intro; reflexivity | reflexivity | reflexivity].
Defined.

(* ================================================================== *)
(** ** Construction and what every instance keeps *)
(* ================================================================== *)

Lemma history_test (k : Z) : negb (k =? 0) && (0 <? k) = (0 <? k).
Proof.
  destruct (0 <? k) eqn:E; [|apply andb_false_r].
  apply Z.ltb_lt in E. rewrite andb_true_r.
  apply negb_true_iff, Z.eqb_neq. lia.
Qed.

Lemma new_returns_inv (arg1 arg2 : Vector2D.value) (o : option Options.t)
      (v : Vector2D.t) :
  Vector2D.new arg1 arg2 o = Vector2D.Normal v ->
  exists c,
    Vector2D.parse arg1 arg2 = Vector2D.Normal c /\
    history_enabled (options_or_default o) = false /\
    v = Vector2D.Build (options_or_default o) c (Some c) None None None.
Proof.
  unfold history_enabled.
  intros H. destruct (Vector2D.parse arg1 arg2) as [c|e] eqn:Hp.
  - rewrite (new_after_parse _ _ o c Hp) in H. exists c. split; [reflexivity|].
    fold (options_or_default o) in H.
    destruct (Options.history (options_or_default o)) as [k|].
    + rewrite history_test in H. destruct (0 <? k); [discriminate|].
      injection H as <-. auto.
    + injection H as <-. auto.
  - rewrite (new_after_parse_error _ _ o e Hp) in H. discriminate.
Qed.


(** What one call keeps besides well-formedness. *)
Lemma run_keeps (c : call) (this : Vector2D.t) :
  Vector2D.history this = None ->
  history_enabled (Vector2D.options this) = false ->
  Vector2D.saved this <> None ->
  let this' := snd (run c this) in
  Vector2D.history this' = None /\
  Vector2D.options this' = Vector2D.options this /\
  Vector2D.saved this' <> None.
Proof.
  intros Hh Ho Hs. destruct this as [o cs s h mn mx]. cbn in Hh, Ho, Hs. subst h.
  unfold history_enabled in Ho.
  destruct c as [mu| |x y|x y|]; cbn [run].
  - destruct mu; cbn [mutate]; run_method; cbn; auto.
    destruct (Vector2D.parse arg1 arg2); cbn; auto.
  - rewrite save_eq. cbn.
    destruct (Options.history o) as [k|]; [|cbn; repeat split; discriminate].
    rewrite history_test, Ho. cbn. repeat split; discriminate.
  - unfold Vector2D.min, Vector2D.bind, Vector2D.lift, Vector2D.write.
    destruct (Vector2D.new x y None); cbn; auto.
  - unfold Vector2D.max, Vector2D.bind, Vector2D.lift, Vector2D.write.
    destruct (Vector2D.new x y None); cbn; auto.
  - destruct mn as [mn|], mx as [mx|]; run_method; cbn; auto.
Qed.

Lemma run_all_keeps (cs : list call) :
  forall this : Vector2D.t,
  well_formed this ->
  Vector2D.history this = None ->
  history_enabled (Vector2D.options this) = false ->
  Vector2D.saved this <> None ->
  let this' := run_all cs this in
  well_formed this' /\
  Vector2D.history this' = None /\
  Vector2D.options this' = Vector2D.options this /\
  Vector2D.saved this' <> None.
Proof.
  induction cs as [|c cs IH]; intros this Hw Hh Ho Hs; cbn [run_all].
  - auto.
  - destruct (run_keeps c this Hh Ho Hs) as (Hh' & Ho' & Hs').
    destruct (IH (snd (run c this))) as (A & B & C & D); auto using run_well_formed.
    + rewrite Ho'. exact Ho.
    + cbv zeta. rewrite <- Ho'. auto.
Qed.

(** Whatever calls follow the constructor (mutators, save, min, max,
    clamp, some of them throwing), the instance keeps a buffer of two
    binary32 values, its options, a snapshot and no history; so [dirty]
    returns a boolean and [save()] returns normally on it. *)
Theorem instance_invariant (arg1 arg2 : Vector2D.value) (o : option Options.t)
        (v : Vector2D.t) (cs : list call) :
  Vector2D.new arg1 arg2 o = Vector2D.Normal v ->
  let this := run_all cs v in
  well_formed this /\
  Vector2D.history this = None /\
  Vector2D.options this = options_or_default o /\
  (exists b, Vector2D.dirty this = (Vector2D.Normal b, this)) /\
  fst (Vector2D.save this) = Vector2D.Normal tt.
Proof.
  intros H this.
  pose proof (new_well_formed _ _ _ _ H) as Hw.
  apply new_returns_inv in H. destruct H as (c & _ & Ho & ->).
  destruct (run_all_keeps cs
              (Vector2D.Build (options_or_default o) c (Some c) None None None))
    as (A & B & C & D); try (reflexivity || assumption || discriminate).
  fold this in A, B, C, D. cbn in C.
  split; [exact A|]. split; [exact B|]. split; [exact C|]. split.
  - destruct (Vector2D.saved this) as [s|] eqn:Es; [|congruence].
    eexists. exact (dirty_eq this s Es).
  - rewrite save_eq. cbv zeta. rewrite C. unfold history_enabled in Ho.
    destruct (Options.history (options_or_default o)) as [k|]; [|reflexivity].
    rewrite history_test, Ho. reflexivity.
Qed.

Lemma instance_invariant_witness :
  let this :=
    run_all [Mutate (Add one_tenth one_half); Clamp; Max (num 10) (num 10);
             Mutate (Set_ (num 7) Vector2D.VUndefined); Save]
      (vec (JS.of_Z 1) (JS.of_Z 2)) in
  Vector2D.new (num 1) (num 2) None = Vector2D.Normal (vec (JS.of_Z 1) (JS.of_Z 2)) /\
  well_formed this /\ Vector2D.history this = None /\
  fst (Vector2D.save this) = Vector2D.Normal tt.
Proof.
  intros this. split; [reflexivity|].
  destruct (instance_invariant (num 1) (num 2) None (vec (JS.of_Z 1) (JS.of_Z 2))
              [Mutate (Add one_tenth one_half); Clamp; Max (num 10) (num 10);
               Mutate (Set_ (num 7) Vector2D.VUndefined); Save] eq_refl)
    as (A & B & _ & _ & E).
  split; [exact A|]. split; [exact B|exact E].
Defined.

(* ================================================================== *)
(** ** The mutators *)
(* ================================================================== *)

(** A mutator changes no field but [coords]: [saved], [history], [options]
    and both bounds are afterwards what they were, whether the call returned
    or threw ([add], [subtract], [lerpTo] and the axis setters called with
    Numbers, [set] with any values).  [set(arg1, arg2)] replaces [coords] by
    the buffer [parse] returns; when [parse] throws, [set] throws the same
    error and [coords] too is left as it was. *)
Theorem mutators_change_only_coords (mu : mutation) (this : Vector2D.t) :
  let this' := snd (mutate mu this) in
  Vector2D.saved this' = Vector2D.saved this /\
  Vector2D.history this' = Vector2D.history this /\
  Vector2D.options this' = Vector2D.options this /\
  Vector2D._min this' = Vector2D._min this /\
  Vector2D._max this' = Vector2D._max this /\
  (forall arg1 arg2, mu = Set_ arg1 arg2 ->
     match Vector2D.parse arg1 arg2 with
     | Vector2D.Normal c =>
         mutate mu this = (Vector2D.Normal tt, Vector2D.set_coords c this)
     | Vector2D.Throw e => mutate mu this = (Vector2D.Throw e, this)
     end).
Proof.
  destruct this as [o c s h mn mx].
  destruct mu; cbn [mutate]; run_method;
    try (repeat split; intros ? ? [=]).
  destruct (Vector2D.parse arg1 arg2) as [c'|e] eqn:Hp; cbn;
    (do 5 (split; [reflexivity|])); intros a1 a2 [= <- <-]; rewrite Hp; reflexivity.
Qed.

Lemma mutators_change_only_coords_witness :
  let this :=
    Vector2D.set_max (vec (JS.of_Z 10) (JS.of_Z 10))
      (Vector2D.set_coords [JS.of_Z 4; JS.of_Z 2] (vec (JS.of_Z 1) (JS.of_Z 2))) in
  mutate (Set_ (Vector2D.VBigInt 1) (num 2)) this =
  (Vector2D.Throw Vector2D.TypeError_of_conversion, this) /\
  mutate (Set_ (Vector2D.VArray [num 7; Vector2D.VString "8"]) Vector2D.VUndefined) this =
  (Vector2D.Normal tt, Vector2D.set_coords [JS.of_Z 7; JS.of_Z 8] this).
Proof.
  intros this. split.
  - destruct (mutators_change_only_coords (Set_ (Vector2D.VBigInt 1) (num 2)) this)
      as (_ & _ & _ & _ & _ & H).
    exact (H (Vector2D.VBigInt 1) (num 2) eq_refl).
  - destruct (mutators_change_only_coords
                (Set_ (Vector2D.VArray [num 7; Vector2D.VString "8"]) Vector2D.VUndefined)
                this) as (_ & _ & _ & _ & _ & H).
    exact (H (Vector2D.VArray [num 7; Vector2D.VString "8"]) Vector2D.VUndefined eq_refl).
Defined.

(** [a - b] is [a + (-b)]. *)
Lemma sub_add_neg (a b : JS.number) : JS.sub a b = JS.add a (JS.neg b).
Proof.
  destruct a as [sa|sa| |sa ma ea], b as [sb|sb| |sb mb eb];
    try reflexivity; destruct sa, sb; reflexivity.
Qed.

(** [subtract(x, y)] does to every instance what [add(-x, -y)] does. *)
Theorem subtract_is_add_of_negation (x y : JS.number) (this : Vector2D.t) :
  Vector2D.subtract x y this = Vector2D.add (JS.neg x) (JS.neg y) this.
Proof.
  cbv [Vector2D.subtract Vector2D.add Vector2D.bind Vector2D.write].
  rewrite !sub_add_neg. reflexivity.
Qed.

(* ================================================================== *)
(** ** The three forms of the arguments *)
(* ================================================================== *)

(** Two scalars are parsed as the array of the two is; the coordinates of
    a Vector2D as the array of its two coordinates is.  The forms part on a
    second element that is [undefined]: as an array element it is stored
    as NaN, as a second argument it makes the call a one-argument call,
    which a Number alone does not satisfy. *)
Theorem parse_forms_agree :
  (forall arg1 arg2 : Vector2D.value,
     arg2 <> Vector2D.VUndefined ->
     Vector2D.parse arg1 arg2 =
     Vector2D.parse (Vector2D.VArray [arg1; arg2]) Vector2D.VUndefined)
  /\
  (forall (v : Vector2D.t) (c0 c1 : JS.number),
     Vector2D.coords v = [c0; c1] ->
     Vector2D.parse (Vector2D.VVector2D v) Vector2D.VUndefined =
     Vector2D.parse (Vector2D.VArray [Vector2D.VNumber c0; Vector2D.VNumber c1])
       Vector2D.VUndefined)
  /\
  (forall n : JS.number,
     Vector2D.parse (Vector2D.VArray [Vector2D.VNumber n; Vector2D.VUndefined])
       Vector2D.VUndefined = Vector2D.Normal [JS.fround n; JS.NaN] /\
     Vector2D.parse (Vector2D.VNumber n) Vector2D.VUndefined =
     Vector2D.Throw (Vector2D.TypeError "Argument must be an array or Vector2D object")).
Proof.
  split; [|split].
  - intros arg1 arg2 H. rewrite (parse_scalars arg1 arg2 H), parse_array. reflexivity.
  - intros v c0 c1 E. unfold Vector2D.parse. rewrite E. reflexivity.
  - intros n. split; reflexivity.
Qed.

Lemma parse_forms_agree_witness :
  Vector2D.parse (num 3) (Vector2D.VString "4") =
  Vector2D.parse (Vector2D.VArray [num 3; Vector2D.VString "4"]) Vector2D.VUndefined /\
  Vector2D.parse (Vector2D.VVector2D (vec one_tenth one_half)) Vector2D.VUndefined =
  Vector2D.parse
    (Vector2D.VArray [Vector2D.VNumber (JS.fround one_tenth);
                      Vector2D.VNumber (JS.fround one_half)]) Vector2D.VUndefined.
Proof.
  destruct parse_forms_agree as (Hs & Hv & _). split.
  - apply Hs. discriminate.
  - apply Hv. reflexivity.
Defined.

Ltac split_cases :=
  repeat match goal with
         | |- _ /\ _ => split
         | |- _ <-> _ => split
         | |- _ -> _ => intro
         | H : _ /\ _ |- _ => destruct H
         | H : exists _, _ |- _ => destruct H
         end;
  try reflexivity; try discriminate; try congruence; eauto.

(** Each of the three messages is raised in its own case and in no
    other. *)
Theorem parse_messages (arg1 arg2 : Vector2D.value) :
  (Vector2D.parse arg1 arg2 = Vector2D.Throw (Vector2D.TypeError "Array must be of length 2")
   <-> arg2 = Vector2D.VUndefined /\
       exists l, arg1 = Vector2D.VArray l /\ List.length l <> 2%nat)
  /\
  (Vector2D.parse arg1 arg2 =
   Vector2D.Throw (Vector2D.TypeError "Argument must be an array or Vector2D object")
   <-> arg2 = Vector2D.VUndefined /\ arg1 <> Vector2D.VUndefined /\
       is_array arg1 = false /\ is_vector2d arg1 = false)
  /\
  (Vector2D.parse arg1 arg2 = Vector2D.Throw (Vector2D.TypeError "Must provide an argument")
   <-> arg2 = Vector2D.VUndefined /\ arg1 = Vector2D.VUndefined).
Proof.
  destruct (Vector2D.is_undefined arg2) eqn:Hu.
  - destruct arg2; try discriminate Hu.
    destruct arg1; try solve [cbn; split_cases].
    destruct (List.length elements =? 2)%nat eqn:E.
    + apply Nat.eqb_eq in E. destruct (length_2 _ E) as (a & b & ->).
      split; [|split];
        (split; [intros H; exfalso; revert H; apply parse_pair_no_own_error|]).
      * intros (_ & l & [= <-] & Hl). exfalso. apply Hl. reflexivity.
      * intros (_ & _ & Ha & _). discriminate Ha.
      * intros (_ & Hx). discriminate Hx.
    + unfold Vector2D.parse. cbn [Vector2D.is_undefined negb]. rewrite E.
      apply Nat.eqb_neq in E. split_cases.
  - assert (H2 : arg2 <> Vector2D.VUndefined) by (intros ->; discriminate Hu).
    split; [|split];
      (split; [intros H; exfalso; revert H; apply parse_scalars_no_own_error; exact H2
              |intros (Hx & _); contradiction]).
Qed.

(* ================================================================== *)
(** ** copy and opposite, continued *)
(* ================================================================== *)

Lemma binary_round_neg (prec emax : Z) (s : bool) (m : positive) (e : Z) :
  binary_round prec emax (negb s) m e = SFopp (binary_round prec emax s m e).
Proof.
  unfold binary_round, binary_round_aux.
  destruct (shl_align m e _) as [mz ez].
  destruct (shr_fexp prec emax (Z.pos mz) ez loc_Exact) as [mrs1 e1].
  destruct (shr_fexp prec emax _ e1 loc_Exact) as [mrs2 e2].
  destruct (shr_m mrs2); try reflexivity.
  destruct (e2 <=? emax - prec); reflexivity.
Qed.

Lemma fround_neg (a : JS.number) : JS.fround (JS.neg a) = JS.neg (JS.fround a).
Proof.
  unfold JS.fround, JS.neg. destruct a as [s|s| |s m e]; try reflexivity.
  cbn [SFopp JS.to_binary32]. rewrite binary_round_neg.
  destruct (binary_round JS.prec32 JS.emax32 s m e) as [s'|s'| |s' m' e'];
    try reflexivity.
  cbn [SFopp JS.of_binary32]. apply binary_round_neg.
Qed.

Lemma neg_involutive (a : JS.number) : JS.neg (JS.neg a) = a.
Proof. destruct a as [s|s| |s m e]; cbn; rewrite ?negb_involutive; reflexivity. Qed.

Lemma is_float32_neg (a : JS.number) : is_float32 a -> is_float32 (JS.neg a).
Proof. unfold is_float32. intros H. rewrite fround_neg, H. reflexivity. Qed.

(** [copy()] returns an instance of its own with the receiver's
    coordinates, a snapshot equal to them (so it is not dirty even when the
    receiver is), the default options and no bounds, and leaves the
    receiver as it is. *)
Theorem copy_is_fresh (this : Vector2D.t) :
  float32_pair (Vector2D.coords this) ->
  exists r,
    Vector2D.copy this = (Vector2D.Normal r, this) /\
    Vector2D.coords r = Vector2D.coords this /\
    Vector2D.saved r = Some (Vector2D.coords this) /\
    Vector2D.options r = Options.empty /\
    Vector2D.history r = None /\
    Vector2D._min r = None /\ Vector2D._max r = None /\
    (no_nan (Vector2D.coords this) -> Vector2D.dirty r = (Vector2D.Normal false, r)).
Proof.
  intros H. eexists. split; [exact (copy_eq this H)|].
  do 6 (split; [reflexivity|]).
  intros Hn.
  rewrite (dirty_eq
             (Vector2D.Build Options.empty (Vector2D.coords this)
                (Some (Vector2D.coords this)) None None None)
             (Vector2D.coords this) eq_refl).
  cbn [Vector2D.coords]. rewrite (differ_refl _ Hn). reflexivity.
Qed.

Lemma copy_is_fresh_witness :
  let this :=
    Vector2D.set_max (vec (JS.of_Z 10) (JS.of_Z 10))
      (Vector2D.set_coords [JS.of_Z 4; JS.of_Z 2] (vec (JS.of_Z 1) (JS.of_Z 2))) in
  Vector2D.dirty this = (Vector2D.Normal true, this) /\
  exists r,
    Vector2D.copy this = (Vector2D.Normal r, this) /\
    Vector2D.coords r = [JS.of_Z 4; JS.of_Z 2] /\
    Vector2D._max r = None /\
    Vector2D.dirty r = (Vector2D.Normal false, r).
Proof.
  intros this. split; [reflexivity|].
  destruct (copy_is_fresh this) as (r & Hc & Hco & _ & _ & _ & _ & Hmx & Hd).
  - apply float32_pair_intro; reflexivity.
  - exists r. split; [exact Hc|]. split; [exact Hco|]. split; [exact Hmx|].
    apply Hd. repeat constructor.
Defined.

(** [opposite()] returns an instance whose coordinates are the
    receiver's, negated exactly, and leaves the receiver as it is; taking
    the opposite twice gives the coordinates back. *)
Theorem opposite_negates (this : Vector2D.t) (c0 c1 : JS.number) :
  Vector2D.coords this = [c0; c1] -> is_float32 c0 -> is_float32 c1 ->
  exists r r',
    Vector2D.opposite this = (Vector2D.Normal r, this) /\
    Vector2D.coords r = [JS.neg c0; JS.neg c1] /\
    Vector2D.opposite r = (Vector2D.Normal r', r) /\
    Vector2D.coords r' = [c0; c1].
Proof.
  intros E H0 H1.
  pose proof (is_float32_neg _ H0) as N0. pose proof (is_float32_neg _ H1) as N1.
  unfold is_float32 in H0, H1, N0, N1.
  exists (vec (JS.neg c0) (JS.neg c1)),
         (vec (JS.neg (JS.fround (JS.neg c0))) (JS.neg (JS.fround (JS.neg c1)))).
  split; [unfold Vector2D.opposite, Vector2D.lift; rewrite E; reflexivity|].
  split; [cbn; rewrite N0, N1; reflexivity|].
  split; [reflexivity|].
  cbn. rewrite N0, N1, !neg_involutive, H0, H1. reflexivity.
Qed.

Lemma opposite_negates_witness :
  exists r r',
    Vector2D.opposite (vec (JS.of_Z 3) (JS.of_Z (-2))) =
    (Vector2D.Normal r, vec (JS.of_Z 3) (JS.of_Z (-2))) /\
    Vector2D.coords r = [JS.of_Z (-3); JS.of_Z 2] /\
    Vector2D.opposite r = (Vector2D.Normal r', r) /\
    Vector2D.coords r' = [JS.of_Z 3; JS.of_Z (-2)].
Proof.
  apply (opposite_negates (vec (JS.of_Z 3) (JS.of_Z (-2))) (JS.of_Z 3) (JS.of_Z (-2)));
    reflexivity.
Defined.

(* ================================================================== *)
(** ** The axis accessors *)
(* ================================================================== *)

(** After [this.x = a] the getter [x] gives [a] rounded to binary32 and
    [y] is what it was, and the same with the axes exchanged; writing back
    to an axis the value just read from it changes nothing. *)
Theorem axis_write_then_read (this : Vector2D.t) (a : JS.number) :
  float32_pair (Vector2D.coords this) ->
  (let this' := snd (Vector2D.set_x a this) in
   fst (Vector2D.set_x a this) = Vector2D.Normal tt /\
   Vector2D.x this' = Some (JS.fround a) /\ Vector2D.y this' = Vector2D.y this)
  /\
  (let this' := snd (Vector2D.set_y a this) in
   fst (Vector2D.set_y a this) = Vector2D.Normal tt /\
   Vector2D.y this' = Some (JS.fround a) /\ Vector2D.x this' = Vector2D.x this)
  /\
  Vector2D.set_x (Vector2D.to_number (Vector2D.x this)) this = (Vector2D.Normal tt, this)
  /\
  Vector2D.set_y (Vector2D.to_number (Vector2D.y this)) this = (Vector2D.Normal tt, this).
Proof.
  intros H. destruct (float32_pair_inv _ H) as (c0 & c1 & E & H0 & H1).
  destruct this as [o c s h mn mx]. cbn in E. subst c.
  cbv [Vector2D.set_x Vector2D.set_y Vector2D.write Vector2D.x Vector2D.y
       Vector2D.set_coords Vector2D.coords Vector2D.options Vector2D.saved
       Vector2D.history Vector2D._min Vector2D._max fst snd].
  cbn. rewrite H0, H1. repeat split.
Qed.

Lemma axis_write_then_read_witness :
  let this := vec (JS.of_Z 1) (JS.of_Z 2) in
  Vector2D.x (snd (Vector2D.set_x one_tenth this)) = Some (JS.fround one_tenth) /\
  Vector2D.set_y (Vector2D.to_number (Vector2D.y this)) this = (Vector2D.Normal tt, this).
Proof.
  intros this.
  destruct (axis_write_then_read this one_tenth) as ((_ & Hx & _) & _ & _ & Hy).
  - apply float32_pair_intro; reflexivity.
  - split; [exact Hx|exact Hy].
Defined.

(* ================================================================== *)
(** ** save, continued *)
(* ================================================================== *)

(** Without a positive [options.history], [save()] returns normally,
    replaces the snapshot by a copy of [coords] and changes nothing else;
    a second [save()] right after changes nothing at all. *)
Theorem save_without_limit (this : Vector2D.t) :
  history_enabled (Vector2D.options this) = false ->
  let this' := Vector2D.set_saved (Vector2D.coords this) this in
  Vector2D.save this = (Vector2D.Normal tt, this') /\
  Vector2D.save this' = (Vector2D.Normal tt, this').
Proof.
  intros Ho this'. unfold history_enabled in Ho.
  assert (Ho' : Vector2D.options this' = Vector2D.options this)
    by (destruct this; reflexivity).
  rewrite !save_eq. cbv zeta. rewrite Ho'.
  destruct (Options.history (Vector2D.options this)) as [k|].
  - rewrite history_test, Ho. split; [reflexivity|]. destruct this; reflexivity.
  - split; [reflexivity|]. destruct this; reflexivity.
Qed.

Lemma save_without_limit_witness :
  let this := Vector2D.set_coords [JS.of_Z 4; JS.of_Z 2] (vec (JS.of_Z 1) (JS.of_Z 2)) in
  history_enabled (Vector2D.options this) = false /\
  Vector2D.save this =
  (Vector2D.Normal tt, Vector2D.set_saved [JS.of_Z 4; JS.of_Z 2] this).
Proof.
  intros this. split; [reflexivity|].
  apply (save_without_limit this). reflexivity.
Defined.

(** With a positive limit [k] and [history] holding an array of [n]
    entries, [save()] puts the snapshot at the front and removes one entry
    at the tail only when the array has grown past [k]: the array then has
    [n + 1] entries when [n < k] and [n] entries otherwise, so an array
    that was already longer than [k] stays longer than [k]. *)
Theorem save_history_length (this : Vector2D.t) (k : Z) (h : list Float32Array.t) :
  Options.history (Vector2D.options this) = Some k -> 0 < k ->
  Vector2D.history this = Some h ->
  exists this' h',
    Vector2D.save this = (Vector2D.Normal tt, this') /\
    Vector2D.saved this' = Some (Vector2D.coords this) /\
    Vector2D.coords this' = Vector2D.coords this /\
    Vector2D.history this' = Some h' /\
    h' = firstn (List.length h') (Vector2D.coords this :: h) /\
    List.length h' =
      (if Z.of_nat (List.length h) <? k then S (List.length h) else List.length h).
Proof.
  intros Ho Hk Hh.
  set (c := Vector2D.coords this). set (l := c :: h).
  exists (Vector2D.set_history
            (if k <? Z.of_nat (List.length l) then removelast l else l)
            (Vector2D.set_saved c this)),
         (if k <? Z.of_nat (List.length l) then removelast l else l).
  split.
  { rewrite save_eq, Ho, Hh. cbv zeta. rewrite history_test.
    replace (0 <? k) with true by (symmetry; apply Z.ltb_lt; lia). reflexivity. }
  split; [destruct this; reflexivity|]. split; [destruct this; reflexivity|].
  split; [destruct this; reflexivity|].
  assert (Hl : List.length l = S (List.length h)) by reflexivity.
  destruct (k <? Z.of_nat (List.length l)) eqn:E.
  - apply Z.ltb_lt in E.
    replace (Z.of_nat (List.length h) <? k) with false
      by (symmetry; apply Z.ltb_ge; lia).
    assert (Hr : List.length (removelast l) = List.length h).
    { rewrite removelast_firstn_len, length_firstn. lia. }
    rewrite Hr. split; [|reflexivity].
    rewrite removelast_firstn_len, Hl. reflexivity.
  - apply Z.ltb_ge in E.
    replace (Z.of_nat (List.length h) <? k) with true
      by (symmetry; apply Z.ltb_lt; lia).
    split; [|exact Hl]. symmetry. apply firstn_all.
Qed.

Lemma save_history_length_witness :
  let c := [JS.of_Z 1; JS.of_Z 2] in
  let this :=
    Vector2D.Build {| Options.history := Some 1 |} c (Some c) (Some [c; c; c]) None None in
  exists this' h',
    Vector2D.save this = (Vector2D.Normal tt, this') /\
    Vector2D.history this' = Some h' /\ List.length h' = 3%nat.
Proof.
  intros c this.
  destruct (save_history_length this 1 [c; c; c] eq_refl) as
    (this' & h' & Hs & _ & _ & Hh & _ & Hl); [lia|reflexivity|].
  exists this', h'. split; [exact Hs|]. split; [exact Hh|exact Hl].
Defined.

(* ================================================================== *)
(** ** Order on Numbers *)
(* ================================================================== *)

Lemma compare_nan_r (a : JS.number) : SFcompare a JS.NaN = None.
Proof. destruct a; reflexivity. Qed.

Lemma compare_none (a b : JS.number) :
  SFcompare a b = None -> JS.is_nan a = true \/ JS.is_nan b = true.
Proof.
  destruct a as [sa|sa| |sa ma ea], b as [sb|sb| |sb mb eb]; cbn; auto; discriminate.
Qed.

Lemma compare_some (a b : JS.number) (c : comparison) :
  SFcompare a b = Some c -> JS.is_nan a = false /\ JS.is_nan b = false.
Proof.
  destruct a as [sa|sa| |sa ma ea], b as [sb|sb| |sb mb eb]; cbn; auto; discriminate.
Qed.

Lemma compare_refl (a : JS.number) :
  JS.is_nan a = false -> SFcompare a a = Some Eq.
Proof.
  destruct a as [s|s| |s m e]; cbn; try discriminate; intros _.
  - reflexivity.
  - destruct s; reflexivity.
  - rewrite Z.compare_refl, Pos.compare_cont_refl. destruct s; reflexivity.
Qed.

Lemma compare_antisym (a b : JS.number) :
  SFcompare b a = option_map CompOpp (SFcompare a b).
Proof.
  destruct a as [sa|sa| |sa ma ea], b as [sb|sb| |sb mb eb]; cbn;
    try reflexivity; try (destruct sa; reflexivity); try (destruct sb; reflexivity);
    try (destruct sa, sb; reflexivity).
  rewrite (Z.compare_antisym ea eb).
  replace (Pos.compare_cont Eq mb ma) with (CompOpp (Pos.compare_cont Eq ma mb))
    by apply (Pos.compare_cont_antisym ma mb Eq).
  destruct sa, sb; try reflexivity; destruct (ea ?= eb); cbn; try reflexivity;
    destruct (Pos.compare_cont Eq ma mb); reflexivity.
Qed.

(** Two Numbers that compare equal are the same, or are two zeros. *)
Lemma compare_eq (a b : JS.number) :
  SFcompare a b = Some Eq ->
  a = b \/ exists s s', a = S754_zero s /\ b = S754_zero s'.
Proof.
  destruct a as [sa|sa| |sa ma ea], b as [sb|sb| |sb mb eb]; cbn;
    try discriminate; try (destruct sa; discriminate); try (destruct sb; discriminate).
  - eauto.
  - destruct sa, sb; try discriminate; auto.
  - intros H. left.
    destruct sa, sb; try discriminate; destruct (ea ?= eb) eqn:E; try discriminate;
      apply Z.compare_eq in E; subst eb;
      destruct (Pos.compare_cont Eq ma mb) eqn:F; try discriminate;
      apply Pos.compare_eq in F; subst mb; reflexivity.
Qed.

Lemma Math_min_same (a : JS.number) : JS.Math_min a a = a.
Proof.
  unfold JS.Math_min. destruct (JS.is_nan a) eqn:N.
  - destruct a; try discriminate. reflexivity.
  - rewrite (compare_refl a N). destruct a as [[|]| | |]; reflexivity.
Qed.

Lemma Math_max_same (a : JS.number) : JS.Math_max a a = a.
Proof.
  unfold JS.Math_max. destruct (JS.is_nan a) eqn:N.
  - destruct a; try discriminate. reflexivity.
  - rewrite (compare_refl a N). destruct a as [[|]| | |]; reflexivity.
Qed.

(** What [Math.min] gives and why. *)
Lemma Math_min_spec (a b : JS.number) :
  (JS.Math_min a b = JS.NaN /\ (JS.is_nan a = true \/ JS.is_nan b = true)) \/
  (JS.is_nan a = false /\ JS.is_nan b = false /\
   ((JS.Math_min a b = a /\ number_le a b = true) \/
    (JS.Math_min a b = b /\ number_le b a = true))).
Proof.
  unfold JS.Math_min, number_le, SFleb.
  rewrite (compare_antisym a b).
  destruct (SFcompare a b) as [c|] eqn:E.
  - right. destruct (compare_some _ _ _ E) as [Na Nb]. split; [exact Na|]. split; [exact Nb|].
    destruct c; cbn; auto.
    destruct a as [[|]| | |]; auto. destruct b as [[|]| | |]; auto.
  - left. split; [reflexivity|]. exact (compare_none _ _ E).
Qed.

Lemma Math_max_spec (a b : JS.number) :
  (JS.Math_max a b = JS.NaN /\ (JS.is_nan a = true \/ JS.is_nan b = true)) \/
  (JS.is_nan a = false /\ JS.is_nan b = false /\
   ((JS.Math_max a b = a /\ number_le b a = true) \/
    (JS.Math_max a b = b /\ number_le a b = true))).
Proof.
  unfold JS.Math_max, number_le, SFleb.
  rewrite (compare_antisym a b).
  destruct (SFcompare a b) as [c|] eqn:E.
  - right. destruct (compare_some _ _ _ E) as [Na Nb]. split; [exact Na|]. split; [exact Nb|].
    destruct c; cbn; auto.
    destruct a as [[|]| | |]; auto. destruct b as [[|]| | |]; auto.
  - left. split; [reflexivity|]. exact (compare_none _ _ E).
Qed.

Lemma number_le_refl (a : JS.number) : JS.is_nan a = false -> number_le a a = true.
Proof. intros N. unfold number_le, SFleb. rewrite (compare_refl a N). reflexivity. Qed.

Lemma Math_max_nan_r (a : JS.number) : JS.Math_max a JS.NaN = JS.NaN.
Proof. unfold JS.Math_max. rewrite compare_nan_r. reflexivity. Qed.

Lemma Math_min_nan_r (a : JS.number) : JS.Math_min a JS.NaN = JS.NaN.
Proof. unfold JS.Math_min. rewrite compare_nan_r. reflexivity. Qed.

Lemma is_nan_true (a : JS.number) : JS.is_nan a = true -> a = JS.NaN.
Proof. destruct a; try discriminate. reflexivity. Qed.

(** With ordered bounds and a coordinate that is not NaN, the clamped
    value lies between the bounds. *)
Lemma clamp_between (v lo hi : JS.number) :
  JS.is_nan v = false -> number_le lo hi = true ->
  number_le lo (Globals.clamp v lo hi) = true /\
  number_le (Globals.clamp v lo hi) hi = true.
Proof.
  intros Nv Hle. unfold Globals.clamp.
  assert (Nlo : JS.is_nan lo = false /\ JS.is_nan hi = false).
  { unfold number_le, SFleb in Hle. destruct (SFcompare lo hi) as [c|] eqn:E;
      [exact (compare_some _ _ _ E)|discriminate]. }
  destruct Nlo as [Nlo Nhi].
  assert (Hy : JS.is_nan (JS.Math_min hi v) = false /\
               number_le (JS.Math_min hi v) hi = true).
  { destruct (Math_min_spec hi v) as [[_ [N|N]]|(_ & _ & [[E L]|[E L]])];
      try congruence; rewrite E; auto using number_le_refl. }
  destruct Hy as [Ny Ly].
  destruct (Math_max_spec lo (JS.Math_min hi v)) as [[_ [N|N]]|(_ & _ & [[E L]|[E L]])];
    try congruence; rewrite E; auto using number_le_refl.
Qed.

Lemma Math_min_absorb (a b : JS.number) :
  JS.Math_min a (JS.Math_min a b) = JS.Math_min a b.
Proof.
  destruct (Math_min_spec a b) as [[E _]|(_ & _ & [[E L]|[E L]])].
  - rewrite E. apply Math_min_nan_r.
  - rewrite E. apply Math_min_same.
  - rewrite E. exact E.
Qed.

(** [max(a, min(b, a)) = a] when neither is NaN. *)
Lemma Math_max_min_absorb (a b : JS.number) :
  JS.is_nan a = false -> JS.is_nan b = false ->
  JS.Math_max a (JS.Math_min b a) = a.
Proof.
  intros Na Nb. unfold JS.Math_min.
  destruct (SFcompare b a) as [c|] eqn:E;
    [|destruct (compare_none _ _ E); congruence].
  pose proof (compare_antisym b a) as S. rewrite E in S. cbn in S.
  destruct c.
  - destruct (compare_eq _ _ E) as [->|(s & s' & -> & ->)].
    + replace (match a with S754_zero false => _ | _ => a end) with a
        by (destruct a as [[|]| | |]; reflexivity).
      apply Math_max_same.
    + destruct s, s'; reflexivity.
  - unfold JS.Math_max. rewrite S. reflexivity.
  - apply Math_max_same.
Qed.

(** Clamping a clamped value changes nothing. *)
Lemma clamp_clamp (v lo hi : JS.number) :
  Globals.clamp (Globals.clamp v lo hi) lo hi = Globals.clamp v lo hi.
Proof.
  unfold Globals.clamp.
  pose proof (Math_min_absorb hi v) as A.
  remember (JS.Math_min hi v) as y eqn:Ey.
  destruct (Math_max_spec lo y) as [[E _]|(Nlo & Ny & [[E L]|[E L]])].
  - rewrite E, Math_min_nan_r, Math_max_nan_r. reflexivity.
  - rewrite E. apply Math_max_min_absorb; [exact Nlo|].
    destruct (Math_min_spec hi v) as [[F _]|(Nhi & _)]; [|exact Nhi].
    rewrite Ey, F in Ny. discriminate.
  - rewrite E, A. exact E.
Qed.

(* ================================================================== *)
(** ** Bounds and clamping, continued *)
(* ================================================================== *)

(** [min(x, y)] and [max(x, y)] build the bound as the constructor builds
    an instance without options, store it in [_min], respectively [_max],
    and change nothing else, the coordinates and the other bound included;
    when [parse] rejects the arguments they throw its error and leave the
    instance as it was; two bounds set one after the other do not depend
    on the order of the two calls. *)
Theorem bound_setters (x y : Vector2D.value) (this : Vector2D.t) :
  (forall e, Vector2D.parse x y = Vector2D.Throw e ->
     Vector2D.min x y this = (Vector2D.Throw e, this) /\
     Vector2D.max x y this = (Vector2D.Throw e, this))
  /\
  (forall c, Vector2D.parse x y = Vector2D.Normal c ->
     let b := Vector2D.Build Options.empty c (Some c) None None None in
     Vector2D.min x y this = (Vector2D.Normal tt, Vector2D.set_min b this) /\
     Vector2D.max x y this = (Vector2D.Normal tt, Vector2D.set_max b this) /\
     forall x' y' c', Vector2D.parse x' y' = Vector2D.Normal c' ->
       Vector2D.bind (Vector2D.min x y) (fun _ => Vector2D.max x' y') this =
       Vector2D.bind (Vector2D.max x' y') (fun _ => Vector2D.min x y) this).
Proof.
  split.
  - intros e Hp. unfold Vector2D.min, Vector2D.max, Vector2D.bind, Vector2D.lift.
    rewrite (new_after_parse_error _ _ None e Hp). split; reflexivity.
  - intros c Hp b.
    unfold Vector2D.min, Vector2D.max, Vector2D.bind, Vector2D.lift, Vector2D.write.
    rewrite (new_default _ _ c Hp). fold b.
    split; [reflexivity|]. split; [reflexivity|].
    intros x' y' c' Hp'. rewrite (new_default _ _ c' Hp').
    destruct this; reflexivity.
Qed.

Lemma bound_setters_witness :
  let this := vec (JS.of_Z 15) (JS.of_Z (-5)) in
  Vector2D.min (num 0) (num 0) this =
  (Vector2D.Normal tt, Vector2D.set_min (vec JS.zero JS.zero) this) /\
  Vector2D.max (num 7) Vector2D.VUndefined this =
  (Vector2D.Throw (Vector2D.TypeError "Argument must be an array or Vector2D object"), this).
Proof.
  intros this. split.
  - apply (bound_setters (num 0) (num 0) this). reflexivity.
  - apply (bound_setters (num 7) Vector2D.VUndefined this). reflexivity.
Defined.

Lemma clamp_run (this mn mx : Vector2D.t) (c0 c1 lo0 lo1 hi0 hi1 : JS.number) :
  Vector2D._min this = Some mn -> Vector2D._max this = Some mx ->
  Vector2D.coords this = [c0; c1] ->
  Vector2D.coords mn = [lo0; lo1] -> Vector2D.coords mx = [hi0; hi1] ->
  is_float32 c0 -> is_float32 c1 -> is_float32 lo0 -> is_float32 lo1 ->
  is_float32 hi0 -> is_float32 hi1 ->
  Vector2D.clamp this =
  (Vector2D.Normal tt,
   Vector2D.set_coords [Globals.clamp c0 lo0 hi0; Globals.clamp c1 lo1 hi1] this).
Proof.
  intros Hmn Hmx Ec Elo Ehi H0 H1 L0 L1 U0 U1.
  rewrite (clamp_eq this mn mx c0 c1 lo0 lo1 hi0 hi1 Hmn Hmx Ec Elo Ehi).
  rewrite (is_float32_clamp c0 lo0 hi0), (is_float32_clamp c1 lo1 hi1) by assumption.
  reflexivity.
Qed.

(** Once both bounds are set, a second [clamp()] right after the first
    changes nothing. *)
Theorem clamp_idempotent (this mn mx : Vector2D.t) :
  well_formed this ->
  Vector2D._min this = Some mn -> Vector2D._max this = Some mx ->
  let this' := snd (Vector2D.clamp this) in
  Vector2D.clamp this = (Vector2D.Normal tt, this') /\
  Vector2D.clamp this' = (Vector2D.Normal tt, this').
Proof.
  intros (Hc & Hlo & Hhi) Hmn Hmx. rewrite Hmn in Hlo. rewrite Hmx in Hhi.
  cbn [bound_ok] in Hlo, Hhi.
  destruct (float32_pair_inv _ Hc) as (c0 & c1 & Ec & Hc0 & Hc1).
  destruct (float32_pair_inv _ Hlo) as (lo0 & lo1 & Elo & Hlo0 & Hlo1).
  destruct (float32_pair_inv _ Hhi) as (hi0 & hi1 & Ehi & Hhi0 & Hhi1).
  rewrite (clamp_run this mn mx c0 c1 lo0 lo1 hi0 hi1) by assumption.
  cbn [snd]. split; [reflexivity|].
  rewrite (clamp_run _ mn mx (Globals.clamp c0 lo0 hi0) (Globals.clamp c1 lo1 hi1)
             lo0 lo1 hi0 hi1);
    try assumption; try (destruct this; assumption || reflexivity);
    try (apply is_float32_clamp; assumption).
  rewrite !clamp_clamp. destruct this; reflexivity.
Qed.

Lemma clamp_idempotent_witness :
  let this :=
    Vector2D.set_max (vec (JS.of_Z 10) (JS.of_Z 10))
      (Vector2D.set_min (vec JS.zero JS.zero) (vec (JS.of_Z 15) (JS.of_Z (-5)))) in
  let this' := Vector2D.set_coords [JS.of_Z 10; JS.zero] this in
  Vector2D.clamp this = (Vector2D.Normal tt, this') /\
  Vector2D.clamp this' = (Vector2D.Normal tt, this').
Proof.
  intros this this'.
  apply (clamp_idempotent this (vec JS.zero JS.zero) (vec (JS.of_Z 10) (JS.of_Z 10)));
    [|reflexivity|reflexivity].
  repeat split; repeat constructor.
Defined.

(** Once both bounds are set, with the lower bound not above the upper
    one on an axis and the coordinate on that axis not NaN, the coordinate
    [clamp()] leaves on that axis lies between the two bounds. *)
Theorem clamp_within_bounds (this mn mx : Vector2D.t) (i : nat) :
  well_formed this ->
  Vector2D._min this = Some mn -> Vector2D._max this = Some mx ->
  (i < 2)%nat ->
  let v := Vector2D.to_number (Float32Array.get (Vector2D.coords this) i) in
  let lo := Vector2D.to_number (Float32Array.get (Vector2D.coords mn) i) in
  let hi := Vector2D.to_number (Float32Array.get (Vector2D.coords mx) i) in
  JS.is_nan v = false -> number_le lo hi = true ->
  let v' :=
    Vector2D.to_number
      (Float32Array.get (Vector2D.coords (snd (Vector2D.clamp this))) i) in
  number_le lo v' = true /\ number_le v' hi = true.
Proof.
  intros (Hc & Hlo & Hhi) Hmn Hmx Hi. rewrite Hmn in Hlo. rewrite Hmx in Hhi.
  cbn [bound_ok] in Hlo, Hhi.
  destruct (float32_pair_inv _ Hc) as (c0 & c1 & Ec & Hc0 & Hc1).
  destruct (float32_pair_inv _ Hlo) as (lo0 & lo1 & Elo & Hlo0 & Hlo1).
  destruct (float32_pair_inv _ Hhi) as (hi0 & hi1 & Ehi & Hhi0 & Hhi1).
  rewrite (clamp_run this mn mx c0 c1 lo0 lo1 hi0 hi1) by assumption.
  rewrite Ec, Elo, Ehi.
  replace (Vector2D.coords (snd (Vector2D.Normal tt,
             Vector2D.set_coords [Globals.clamp c0 lo0 hi0; Globals.clamp c1 lo1 hi1] this)))
    with [Globals.clamp c0 lo0 hi0; Globals.clamp c1 lo1 hi1]
    by (destruct this; reflexivity).
  destruct i as [|[|i]]; [| |lia]; cbn; intros Nv Hle; apply clamp_between; assumption.
Qed.

Lemma clamp_within_bounds_witness :
  let this :=
    Vector2D.set_max (vec (JS.of_Z 10) (JS.of_Z 10))
      (Vector2D.set_min (vec JS.zero JS.zero) (vec (JS.of_Z 15) (JS.of_Z (-5)))) in
  let v' :=
    Vector2D.to_number
      (Float32Array.get (Vector2D.coords (snd (Vector2D.clamp this))) 1) in
  number_le JS.zero v' = true /\ number_le v' (JS.of_Z 10) = true.
Proof.
  intros this.
  apply (clamp_within_bounds this (vec JS.zero JS.zero) (vec (JS.of_Z 10) (JS.of_Z 10)) 1);
    try reflexivity; [repeat split; repeat constructor|lia].
Defined.

(* ================================================================== *)
(** ** The interpolation factory and lerpTo *)
(* ================================================================== *)

(** [Vector2D.lerp(v1, v2, amt)] has the coordinates that a copy of [v1]
    has after [lerpTo(v2.x, v2.y, amt)]. *)
Theorem lerp_is_copy_then_lerpTo (v1 v2 : Vector2D.t) (amt : JS.number) :
  float32_pair (Vector2D.coords v1) ->
  exists c c' r,
    Vector2D.copy v1 = (Vector2D.Normal c, v1) /\
    Vector2D.lerpTo (Vector2D.to_number (Vector2D.x v2))
      (Vector2D.to_number (Vector2D.y v2)) amt c = (Vector2D.Normal tt, c') /\
    Vector2D.lerp v1 v2 amt = Vector2D.Normal r /\
    Vector2D.coords r = Vector2D.coords c'.
Proof.
  intros H. destruct (float32_pair_inv _ H) as (a0 & a1 & E & _).
  eexists. eexists. eexists.
  split; [exact (copy_eq v1 H)|]. split; [reflexivity|]. split; [apply lerp_eq|].
  rewrite E. reflexivity.
Qed.

Lemma lerp_is_copy_then_lerpTo_witness :
  exists c c' r,
    Vector2D.copy (vec JS.zero JS.zero) = (Vector2D.Normal c, vec JS.zero JS.zero) /\
    Vector2D.lerpTo (JS.of_Z 10) (JS.of_Z 4) one_half c = (Vector2D.Normal tt, c') /\
    Vector2D.lerp (vec JS.zero JS.zero) (vec (JS.of_Z 10) (JS.of_Z 4)) one_half =
    Vector2D.Normal r /\
    Vector2D.coords r = Vector2D.coords c'.
Proof.
  apply (lerp_is_copy_then_lerpTo (vec JS.zero JS.zero)
           (vec (JS.of_Z 10) (JS.of_Z 4)) one_half).
  apply float32_pair_intro; reflexivity.
Defined.
